(** * kpt [pkg/client]: the dynamic-client adapter and the ownership
      annotation reconciler

    A shallow embedding of [src/pkg/client/client.go] and the properties its
    specification states about it.

    - Part I embeds the data model and the two halves of the package: the
      accessor ([resourceInterface], [Get], [Update]), whose remote calls are
      events of a small free monad, and the reconciler ([getOriginalObj],
      [UpdateAnnotation]), which is a pure transformation of an in-memory
      object and is written in state-passing style.
    - Part II proves the properties. *)

From Stdlib Require Import Ascii.
From stdpp Require Import base option list gmap strings countable.

Set Default Proof Using "Type".

(* ===================================================================== *)
(** * Part I: the embedding                                               *)
(* ===================================================================== *)

(** ** Go conventions *)

(** Every Go type has a zero value, written [T{}] in the source. *)
Class GoZero (T : Type) := zero : T.

(** [len] of a byte slice that may be [nil]; a [nil] slice has length 0. *)
Definition len (b : option string) : nat := from_option String.length 0 b.

(** Reading a Go map that may be [nil]: a [nil] map has no entries. *)
Definition nil_lookup (m : option (gmap string string)) (k : string) : option string :=
  m ≫= (.!! k).

(** The two-result form of a map read, [val, found := m[k]]: a missing key
    yields the zero value and [found = false]. *)
Definition comma_ok (o : option string) : string * bool :=
  match o with
  | Some val => (val, true)
  | None => (EmptyString, false)
  end.

(** ** Object representation

    [unstructured.Unstructured] is a schema-less tree.  The package only ever
    touches it through the annotation accessors, so the tree is kept as the
    annotation map (which may be missing: [None] is Go's [nil] map) and an
    uninterpreted remainder [body] that stands for every other field.

    [Unstructured B] is an object within the data model of the
    specification: its metadata block is absent or a map, and annotations
    map strings to strings.  The live objects handed to the package are of
    this kind. *)
Record Unstructured (B : Type) : Type := mkUnstructured {
  annotations : option (gmap string string);
  body : B
}.
Arguments mkUnstructured {B} _ _.
Arguments annotations {B} _.
Arguments body {B} _.

(** The decoder is less particular: it accepts any JSON object that names a
    kind.  [Decoded B] is what it may return: an object of the data model, or
    an object whose [metadata] field is present but is not a map ([null], a
    string, a number, a list), [rest] standing for all its fields. *)
Inductive Decoded (B : Type) : Type :=
| WellFormed (u : Unstructured B)
| MetadataNotMap (rest : B).
Arguments WellFormed {B} _.
Arguments MetadataNotMap {B} _.
Coercion WellFormed : Unstructured >-> Decoded.

(** What a decoded object holds besides its annotations. *)
Definition content {B : Type} (d : Decoded B) : B :=
  match d with
  | WellFormed u => body u
  | MetadataNotMap rest => rest
  end.

(** The annotation accessors (the two methods of [metav1.Object] that the
    package and kubectl call).

    [u.GetAnnotations()] returns a fresh copy of the annotation map, [nil]
    when the object has none or when they cannot be reached.  The copy
    shares nothing with the object, so writing to it does not change the
    object.

    [u.SetAnnotations(m)] replaces the whole annotation map ([nil] removes
    it) and leaves every other field alone.  It has no error result: when
    [metadata] is not a map the library's nested write fails, the failure is
    dropped, and the object stays as it was. *)
Class Annotated (T : Type) : Type := {
  GetAnnotations : T → option (gmap string string);
  SetAnnotations : option (gmap string string) → T → T
}.

#[global] Instance Unstructured_annotated {B : Type} : Annotated (Unstructured B) := {|
  GetAnnotations u := annotations u;
  SetAnnotations m u := mkUnstructured m (body u)
|}.

#[global] Instance Decoded_annotated {B : Type} : Annotated (Decoded B) := {|
  GetAnnotations d :=
    match d with
    | WellFormed u => annotations u
    | MetadataNotMap _ => None
    end;
  SetAnnotations m d :=
    match d with
    | WellFormed u => WellFormed (mkUnstructured m (body u))
    | MetadataNotMap rest => MetadataNotMap rest
    end
|}.

Arguments GetAnnotations : simpl never.
Arguments SetAnnotations : simpl never.

(** The value of one annotation of an object, if any. *)
Definition annotation {T : Type} `{!Annotated T} (u : T) (k : string) : option string :=
  nil_lookup (GetAnnotations u) k.

(** ** Well-known annotation keys *)

(** The ownership annotation (the local [key] of [UpdateAnnotation]). *)
Definition owningInventoryKey : string := "config.k8s.io/owning-inventory".

(** [v1.LastAppliedConfigAnnotation]. *)
Definition LastAppliedConfigAnnotation : string :=
  "kubectl.kubernetes.io/last-applied-configuration".

(** ** The last-applied codec of kubectl ([k8s.io/kubectl/pkg/util])

    The package is not part of this repository; [UpdateAnnotation] calls its
    [CreateOrUpdateAnnotation].  The functions take any [runtime.Object] and
    reach its annotations through the accessors, so they are written over
    any [Annotated] type.  The encoder is a parameter.  The bookkeeping
    around the encoder follows the library ([apply.go]): the object is
    serialised without its own last-applied annotation and the text is then
    stored under that annotation.  Objects are passed by pointer in Go, so
    every function returns the object as it left it, next to its Go result.
    The properties of Part II that go through this codec use two facts about
    it: it reads and writes no annotation but the last-applied one
    ([CreateOrUpdateAnnotation_other_keys]), and an error it returns is the
    encoder's ([CreateOrUpdateAnnotation_error]). *)
Section LastApplied.
Context {T error : Type} `{!Annotated T}.

(** A [runtime.Encoder] for the objects of [T]: the bytes, or an error. *)
Definition Encoder : Type := T → error + string.

(** The annotation's bytes, [nil] when the annotation is absent. *)
Definition GetOriginalConfiguration (obj : T) : option string :=
  nil_lookup (GetAnnotations obj) LastAppliedConfigAnnotation.

(** Serialises [obj] with the last-applied annotation taken out, and puts
    the annotation back afterwards.  When the encoder fails the function
    returns at once, before the annotation is put back. *)
Definition GetModifiedConfiguration (obj : T) (codec : Encoder)
  : T * (error + string) :=
  let annots := default ∅ (GetAnnotations obj) in
  let original := default EmptyString (annots !! LastAppliedConfigAnnotation) in
  let annots := delete LastAppliedConfigAnnotation annots in
  let obj := SetAnnotations (Some annots) obj in
  match codec obj with
  | inl err => (obj, inl err)
  | inr modified =>
      let annots := <[LastAppliedConfigAnnotation := original]> annots in
      (SetAnnotations (Some annots) obj, inr modified)
  end.

(** Stores [original] under the last-applied annotation; empty bytes are
    not stored. *)
Definition setOriginalConfiguration (obj : T) (original : string)
  : T :=
  if String.length original <? 1 then obj
  else
    let annots := default ∅ (GetAnnotations obj) in
    SetAnnotations (Some (<[LastAppliedConfigAnnotation := original]> annots)) obj.

(** Serialises the object and stores the text as its last-applied
    annotation. *)
Definition CreateApplyAnnotation (obj : T) (codec : Encoder)
  : T * option error :=
  match GetModifiedConfiguration obj codec with
  | (obj, inl err) => (obj, Some err)
  | (obj, inr modified) => (setOriginalConfiguration obj modified, None)
  end.

(** Refreshes the annotation only when it is already present (and not
    empty); otherwise does nothing. *)
Definition updateApplyAnnotation (obj : T) (codec : Encoder)
  : T * option error :=
  if len (GetOriginalConfiguration obj) <=? 0 then (obj, None)
  else CreateApplyAnnotation obj codec.

(** The entry point; the reconciler calls it with [createAnnotation = false]. *)
Definition CreateOrUpdateAnnotation (createAnnotation : bool)
    (obj : T) (codec : Encoder) : T * option error :=
  if createAnnotation then CreateApplyAnnotation obj codec
  else updateApplyAnnotation obj codec.
End LastApplied.
Arguments Encoder : clear implicits.
Arguments Encoder T error : assert.

(** ** The JSON codec

    Two services of the Kubernetes libraries that the reconciler calls and
    that this package does not implement. *)
Class JSONCodec (B error : Type) : Type := {
  (** [json.Unmarshal(data, u)] into a fresh [Unstructured]: the decoded
      object, which need not be within the data model, or the decoding
      error. *)
  json_Unmarshal : string → error + Decoded B;
  (** [scheme.DefaultJSONEncoder()]. *)
  DefaultJSONEncoder : Encoder (Decoded B) error
}.

(** ** The annotation reconciler (client.go, lines 64-103) *)
Section Reconciler.
Context {B error : Type} `{!JSONCodec B error}.

(** [getOriginalObj]: the snapshot stored under the last-applied
    annotation; [nil] when the annotation is absent or does not decode. *)
Definition getOriginalObj (obj : Unstructured B) : option (Decoded B) :=
  let annotations := GetAnnotations obj in
  let '(lastApplied, found) :=
    comma_ok (nil_lookup annotations LastAppliedConfigAnnotation) in
  if negb found then None
  else
    match json_Unmarshal lastApplied with
    | inl _ => None
    | inr u => Some u
    end.

(** [UpdateAnnotation].  The result is the object as the call leaves it,
    followed by the two Go results [(changed, err)]. *)
Definition UpdateAnnotation (obj : Unstructured B) (oldID newID : string)
  : Unstructured B * (bool * option error) :=
  let key := "config.k8s.io/owning-inventory" in
  let annotations := GetAnnotations obj in
  let annotations :=
    match annotations with
    | None => ∅
    | Some annotations => annotations
    end in
  let '(val, found) := comma_ok (annotations !! key) in
  if negb found || bool_decide (val = oldID) then
    let annotations := <[key := newID]> annotations in
    match getOriginalObj obj with
    | Some u =>
        let u := SetAnnotations (Some annotations) u in
        let '(u, err) := CreateOrUpdateAnnotation false u DefaultJSONEncoder in
        let obj := SetAnnotations (GetAnnotations u) obj in
        (obj, (true, err))
    | None =>
        let obj := SetAnnotations (Some annotations) obj in
        (obj, (true, None))
    end
  else (obj, (false, None)).
End Reconciler.

(** ** Vocabulary of the properties *)

(** The precondition of the conditional update: the object has no ownership
    annotation, or the annotation names [oldID]. *)
Definition unowned_or_owned_by {B : Type} (obj : Unstructured B) (oldID : string) : Prop :=
  annotation obj owningInventoryKey = None ∨
  annotation obj owningInventoryKey = Some oldID.

(** A fact about JSON that the properties of the snapshot rely on: the empty
    text is not a JSON document. *)
Definition rejects_empty_text (B error : Type) `{!JSONCodec B error} : Prop :=
  ∀ u : Decoded B, json_Unmarshal EmptyString ≠ inr u.

(** Encoding an object of the data model never gives a text that decodes to
    an object whose metadata is not a map. *)
Definition encoder_keeps_metadata (B error : Type) `{!JSONCodec B error} : Prop :=
  ∀ (u : Unstructured B) (text : string) (rest : B),
    DefaultJSONEncoder (WellFormed u) = inr text →
    json_Unmarshal text ≠ inr (MetadataNotMap rest).

(** The last-applied annotation of the object, when it decodes, decodes to
    an object of the data model: the annotations of the snapshot can be
    written. *)
Definition snapshot_writable {B error : Type} `{!JSONCodec B error}
    (obj : Unstructured B) : Prop :=
  ∀ rest : B, getOriginalObj obj ≠ Some (MetadataNotMap rest).

(** The annotation map a successful update works on: the live object's
    annotations ([nil] read as empty) with the ownership key set. *)
Definition assigned {B : Type} (obj : Unstructured B) (newID : string) : gmap string string :=
  <[owningInventoryKey := newID]> (default ∅ (GetAnnotations obj)).

(** ** The object accessor (client.go, lines 20-62)

    [Get] and [Update] talk to two external services, the REST mapper and the
    dynamic client.  Each request to one of them is an event; a program is a
    finite tree of events, so that the requests a call issues, and their
    order, can be read off the program. *)
(** Types of the Kubernetes libraries that the accessor passes around
    without looking inside, each with the zero value the source builds. *)
Class Kubernetes : Type := {
  (** Go's [error] values; [nil] is [None] of [option go_error]. *)
  go_error : Type;
  context_Context : Type;
  schema_GroupKind : Type;
  schema_GroupVersionResource : Type;
  metav1_GetOptions : Type;
  metav1_UpdateOptions : Type;
  metav1_GetOptions_zero :: GoZero metav1_GetOptions;
  metav1_UpdateOptions_zero :: GoZero metav1_UpdateOptions;
  (** What an object holds besides its annotations. *)
  object_body : Type
}.

Section Accessor.
Context `{Kubernetes}.

#[local] Abbreviation error := go_error.
#[local] Abbreviation B := object_body.

(** [object.ObjMetadata]: the identity of a remote object. *)
Record ObjMetadata : Type := mkObjMetadata {
  Namespace : string;
  Name : string;
  GroupKind : schema_GroupKind
}.

(** [meta.RESTMapping], of which only [Resource] is read. *)
Record RESTMapping : Type := mkRESTMapping {
  Resource : schema_GroupVersionResource
}.

(** [dynamic.ResourceInterface] as built by
    [uc.client.Resource(r).Namespace(ns)]: a handle, made without I/O, that
    names the resource type and the namespace its requests go to. *)
Record ResourceInterface : Type := mkResourceInterface {
  handle_resource : schema_GroupVersionResource;
  handle_namespace : string
}.

(** Requests to the external services, indexed by the type of the answer.
    The mapper's answer is a sum, since the source reads the mapping only
    when [err] is [nil].  A Go result pair [(value, err)] of the dynamic
    client is kept as a pair, since [Get] hands it on as it is. *)
Inductive request : Type → Type :=
| RESTMapper_RESTMapping (gk : schema_GroupKind)
    : request (error + RESTMapping)
| Resource_Get (r : ResourceInterface) (ctx : context_Context)
      (name : string) (opts : metav1_GetOptions)
    : request (option (Unstructured B) * option error)
| Resource_Update (r : ResourceInterface) (ctx : context_Context)
      (obj : Unstructured B) (opts : metav1_UpdateOptions)
    : request (option (Unstructured B) * option error).

(** Programs over [request]. *)
Inductive prog (R : Type) : Type :=
| Ret (r : R)
| Vis (X : Type) (e : request X) (k : X → prog R).
Arguments Ret {R} _.
Arguments Vis {R X} _ _.

Fixpoint bind {R S : Type} (p : prog R) (f : R → prog S) : prog S :=
  match p with
  | Ret r => f r
  | Vis e k => Vis e (λ x, bind (k x) f)
  end.

Definition call {X : Type} (e : request X) : prog X := Vis e Ret.

#[local] Notation "'let*' x ':=' p 'in' q" := (bind p (λ x, q))
  (at level 10, x name, p at level 100, q at level 200, only parsing).

(** [resourceInterface] *)
Definition resourceInterface (meta : ObjMetadata) : prog (error + ResourceInterface) :=
  let* r := call (RESTMapper_RESTMapping (GroupKind meta)) in
  match r with
  | inl err => Ret (inl err)
  | inr mapping =>
      let namespacedClient := mkResourceInterface (Resource mapping) (Namespace meta) in
      Ret (inr namespacedClient)
  end.

(** [Update]; [options] is a pointer that may be [nil]. *)
Definition Update (ctx : context_Context) (meta : ObjMetadata)
    (obj : Unstructured B) (options : option metav1_UpdateOptions)
  : prog (option error) :=
  let* r := resourceInterface meta in
  match r with
  | inl err => Ret (Some err)
  | inr r =>
      let options :=
        match options with
        | None => zero
        | Some options => options
        end in
      let* res := call (Resource_Update r ctx obj options) in
      Ret (snd res)
  end.

(** [Get] *)
Definition Get (ctx : context_Context) (meta : ObjMetadata)
  : prog (option (Unstructured B) * option error) :=
  let* r := resourceInterface meta in
  match r with
  | inl err => Ret (None, Some err)
  | inr r => call (Resource_Get r ctx (Name meta) zero)
  end.

(** *** Running a program

    The external services are a handler: given the state [W] of the outside
    world, it answers a request and moves the world on.  [run] answers the
    requests of a program in order and records them. *)
Definition handler (W : Type) : Type := ∀ X, request X → W → X * W.

(** One recorded request. *)
Definition issued : Type := { X : Type & request X }.
Definition Issued {X : Type} (e : request X) : issued := existT X e.

Fixpoint run {W R : Type} (h : handler W) (p : prog R) (w : W)
  : R * W * list issued :=
  match p with
  | Ret r => (r, w, [])
  | Vis e k =>
      let '(x, w) := h _ e w in
      let '(r, w, log) := run h (k x) w in
      (r, w, Issued e :: log)
  end.
End Accessor.

(** ** A reference codec

    The JSON codec is a parameter of the reconciler.  The examples below need
    one that can be run: objects whose [body] is a string (say, the kind of
    the object) are written as the binary digits of their [Countable] code
    and read back from them.  An encoder can fail; so that this path can be
    run, the reference encoder refuses the objects whose body is
    [Unregistered]. *)
Fixpoint pos_to_bits (p : positive) : string :=
  match p with
  | xH => String "1"%char EmptyString
  | xO p => String "0"%char (pos_to_bits p)
  | xI p => String "1"%char (pos_to_bits p)
  end.

Fixpoint bits_to_pos (s : string) : option positive :=
  match s with
  | EmptyString => None
  | String c s' =>
      match s' with
      | EmptyString => if Ascii.eqb c "1"%char then Some xH else None
      | String _ _ =>
          if Ascii.eqb c "0"%char then xO <$> bits_to_pos s'
          else if Ascii.eqb c "1"%char then xI <$> bits_to_pos s'
          else None
      end
  end.

#[global] Instance Unstructured_eq_dec `{EqDecision B} : EqDecision (Unstructured B).
Proof. solve_decision. Defined.

#[global] Program Instance Unstructured_countable `{Countable B} : Countable (Unstructured B) :=
  inj_countable' (λ u, (annotations u, body u)) (λ p, mkUnstructured p.1 p.2) _.
Next Obligation. by intros B ?? []. Qed.

#[global] Instance Decoded_eq_dec `{EqDecision B} : EqDecision (Decoded B).
Proof. solve_decision. Defined.

#[global] Program Instance Decoded_countable `{Countable B} : Countable (Decoded B) :=
  inj_countable'
    (λ d, match d with WellFormed u => inl u | MetadataNotMap rest => inr rest end)
    (λ s, match s with inl u => WellFormed u | inr rest => MetadataNotMap rest end) _.
Next Obligation. by intros B ?? []. Qed.

Definition sample_Unmarshal (data : string) : string + Decoded string :=
  match bits_to_pos data ≫= decode with
  | Some u => inr u
  | None => inl "invalid character"
  end.

Definition sample_Encoder : Encoder (Decoded string) string :=
  λ u, if bool_decide (content u = "Unregistered")
       then inl "no kind is registered"
       else inr (pos_to_bits (encode u)).

#[global] Instance sample_codec : JSONCodec string string := {
  json_Unmarshal := sample_Unmarshal;
  DefaultJSONEncoder := sample_Encoder
}.

(** The text the reference codec writes for an object. *)
Definition sample_text (u : Decoded string) : string := pos_to_bits (encode u).

(** ** Sample objects *)

(** An object without annotations. *)
Definition bare : Unstructured string := mkUnstructured None "ConfigMap".

(** A snapshot with the empty annotation map, and a live object that carries
    it under the last-applied annotation. *)
Definition snapshot_empty : Unstructured string := mkUnstructured (Some ∅) "ConfigMap".
Definition applied : Unstructured string :=
  mkUnstructured (Some {[ LastAppliedConfigAnnotation := sample_text snapshot_empty ]}) "ConfigMap".

(** The same live object, already owned by the inventory [inv-1]. *)
Definition applied_owned : Unstructured string :=
  mkUnstructured
    (Some {[ owningInventoryKey := "inv-1";
             LastAppliedConfigAnnotation := sample_text snapshot_empty ]})
    "ConfigMap".

(** A snapshot with an annotation of its own, under a live object that has a
    different one. *)
Definition snapshot_a : Unstructured string := mkUnstructured (Some {[ "a" := "1" ]}) "ConfigMap".
Definition applied_b : Unstructured string :=
  mkUnstructured
    (Some {[ "b" := "2"; LastAppliedConfigAnnotation := sample_text snapshot_a ]})
    "ConfigMap".

(** A live object whose snapshot decodes but is refused by the encoder. *)
Definition snapshot_unregistered : Unstructured string :=
  mkUnstructured (Some ∅) "Unregistered".
Definition applied_unregistered : Unstructured string :=
  mkUnstructured
    (Some {[ LastAppliedConfigAnnotation := sample_text snapshot_unregistered ]})
    "Unregistered".

(** A live object whose last-applied annotation is not a serialised object. *)
Definition applied_malformed : Unstructured string :=
  mkUnstructured (Some {[ LastAppliedConfigAnnotation := "{not json" ]}) "ConfigMap".

(** ** A sample cluster

    The library types are filled in with plain data, and the two services
    are played by a handler over a store of objects indexed by name: the
    mapper knows one kind, a fetch reads the store, an update writes it. *)
#[global] Instance sample_kubernetes : Kubernetes := {
  go_error := string;
  context_Context := unit;
  schema_GroupKind := string;
  schema_GroupVersionResource := string;
  metav1_GetOptions := unit;
  metav1_UpdateOptions := list string;
  metav1_GetOptions_zero := tt;
  metav1_UpdateOptions_zero := [];
  object_body := string
}.

Definition sample_cluster : handler (gmap string (Unstructured string)) :=
  λ X e,
    match e in request X return gmap string (Unstructured string) → X * gmap string (Unstructured string) with
    | RESTMapper_RESTMapping gk => λ w,
        (if bool_decide (gk = "ConfigMap") then inr (mkRESTMapping "configmaps")
         else inl "no matches for kind", w)
    | Resource_Get r ctx name opts => λ w,
        (match w !! name with
         | Some obj => (Some obj, None)
         | None => (None, Some "not found")
         end, w)
    | Resource_Update r ctx obj opts => λ w,
        ((Some obj, None), <[ body obj := obj ]> w)
    end.

(** ** The client (client.go, lines 20-31)

    The receiver of [Get] and [Update] holds the two services.  Each service
    may keep state of its own (a discovery cache, the cluster); [W] is the
    state of the outside world, which every method reads and moves on. *)
Section Client.
Context `{Kubernetes}.

(** [meta.RESTMapper], as far as the package uses it: the method
    [RESTMapping]. *)
Definition meta_RESTMapper (W : Type) : Type :=
  schema_GroupKind → W → (go_error + RESTMapping) * W.

(** [dynamic.Interface], as far as the package uses it: the methods [Get]
    and [Update] of the handle that [Resource(r).Namespace(ns)] builds. *)
Record dynamic_Interface (W : Type) : Type := mkDynamic {
  dynamic_Get : ResourceInterface → context_Context → string → metav1_GetOptions →
                W → (option (Unstructured object_body) * option go_error) * W;
  dynamic_Update : ResourceInterface → context_Context → Unstructured object_body →
                   metav1_UpdateOptions →
                   W → (option (Unstructured object_body) * option go_error) * W
}.
Arguments mkDynamic {W} _ _.
Arguments dynamic_Get {W} _.
Arguments dynamic_Update {W} _.

(** The struct [client]; its first field is also called [client] in the
    source. *)
Record client (W : Type) : Type := mkClient {
  client_client : dynamic_Interface W;
  restMapper : meta_RESTMapper W
}.
Arguments mkClient {W} _ _.
Arguments client_client {W} _.
Arguments restMapper {W} _.

(** [NewClient] *)
Definition NewClient {W : Type} (d : dynamic_Interface W) (mapper : meta_RESTMapper W)
  : client W :=
  {| client_client := d; restMapper := mapper |}.

(** The requests of a method of [uc] go to the fields of [uc]:
    [uc.restMapper.RESTMapping] and the handle made from [uc.client]. *)
Definition serve {W : Type} (uc : client W) : handler W :=
  λ X e,
    match e in request X return W → X * W with
    | RESTMapper_RESTMapping gk => restMapper uc gk
    | Resource_Get r ctx name opts => dynamic_Get (client_client uc) r ctx name opts
    | Resource_Update r ctx obj opts => dynamic_Update (client_client uc) r ctx obj opts
    end.
End Client.
Arguments mkDynamic {_ W} _ _.
Arguments dynamic_Get {_ W} _.
Arguments dynamic_Update {_ W} _.
Arguments mkClient {_ W} _ _.
Arguments client_client {_ W} _.
Arguments restMapper {_ W} _.

(** ** More sample data *)

(** A live object of the data model whose last-applied text decodes to an
    object with a metadata field that is not a map, such as the JSON text
    with the two fields kind: ConfigMap and metadata: null. *)
Definition snapshot_null_metadata : Decoded string := MetadataNotMap "ConfigMap".
Definition applied_null_metadata : Unstructured string :=
  mkUnstructured
    (Some {[ "b" := "2"; LastAppliedConfigAnnotation := sample_text snapshot_null_metadata ]})
    "ConfigMap".

(** An object owned by [inv-1] that was never applied. *)
Definition owned_plain : Unstructured string :=
  mkUnstructured (Some {[ owningInventoryKey := "inv-1" ]}) "ConfigMap".

(** The two services of the sample cluster, one by one. *)
Definition sample_mapper : meta_RESTMapper (gmap string (Unstructured string)) :=
  sample_cluster _ ∘ RESTMapper_RESTMapping.

Definition sample_dynamic : dynamic_Interface (gmap string (Unstructured string)) :=
  mkDynamic
    (λ r ctx name opts, sample_cluster _ (Resource_Get r ctx name opts))
    (λ r ctx obj opts, sample_cluster _ (Resource_Update r ctx obj opts)).

(* ===================================================================== *)
(** * Part II: properties                                                 *)
(* ===================================================================== *)

(** ** Basic facts *)

Lemma length_zero_empty (s : string) : String.length s = 0 ↔ s = EmptyString.
Proof. destruct s; simpl; split; intros; congruence. Qed.

Lemma owning_ne_lastApplied : owningInventoryKey ≠ LastAppliedConfigAnnotation.
Proof. discriminate. Qed.

Lemma lookup_default_empty (m : option (gmap string string)) (k : string) :
  default ∅ m !! k = nil_lookup m k.
Proof. destruct m; [done | apply lookup_empty]. Qed.

(** The accessors on an object of the data model. *)
Section AccessorFacts.
Context {B : Type}.
Implicit Types (u : Unstructured B) (m : option (gmap string string)).

Lemma GetAnnotations_SetAnnotations m u : GetAnnotations (SetAnnotations m u) = m.
Proof. done. Qed.

Lemma body_SetAnnotations m u : body (SetAnnotations m u) = body u.
Proof. done. Qed.

Lemma SetAnnotations_SetAnnotations m m' u :
  SetAnnotations m (SetAnnotations m' u) = SetAnnotations m u.
Proof. done. Qed.

Lemma annotation_SetAnnotations (a : gmap string string) u k :
  annotation (SetAnnotations (Some a) u) k = a !! k.
Proof. done. Qed.

Lemma annotation_copy {T : Type} `{!Annotated T} u (u' : T) k :
  annotation (SetAnnotations (GetAnnotations u') u) k = annotation u' k.
Proof. done. Qed.

Lemma annotation_default u k : default ∅ (GetAnnotations u) !! k = annotation u k.
Proof. apply lookup_default_empty. Qed.

Lemma annotation_assigned_owner u newID :
  assigned u newID !! owningInventoryKey = Some newID.
Proof. apply lookup_insert_eq. Qed.

Lemma annotation_assigned_other u newID k :
  k ≠ owningInventoryKey → assigned u newID !! k = annotation u k.
Proof.
  intros Hk. unfold assigned.
  rewrite lookup_insert_ne by congruence. apply annotation_default.
Qed.
End AccessorFacts.

(** ** The last-applied codec on an object of the data model *)
Section LastAppliedFacts.
Context {B error : Type}.
Implicit Types (u : Unstructured B) (codec : Encoder (Unstructured B) error).

(** The object handed to the encoder: [u] without its last-applied
    annotation. *)
Lemma GetModifiedConfiguration_failure u codec err :
  codec (SetAnnotations (Some (delete LastAppliedConfigAnnotation (default ∅ (GetAnnotations u)))) u) = inl err →
  GetModifiedConfiguration u codec =
    (SetAnnotations (Some (delete LastAppliedConfigAnnotation (default ∅ (GetAnnotations u)))) u, inl err).
Proof. intros H. unfold GetModifiedConfiguration. by rewrite H. Qed.

Lemma GetModifiedConfiguration_success u codec original modified :
  annotation u LastAppliedConfigAnnotation = Some original →
  codec (SetAnnotations (Some (delete LastAppliedConfigAnnotation (default ∅ (GetAnnotations u)))) u) = inr modified →
  GetModifiedConfiguration u codec =
    (SetAnnotations (Some (default ∅ (GetAnnotations u))) u, inr modified).
Proof.
  intros Ho H. unfold GetModifiedConfiguration. rewrite H.
  rewrite annotation_default, Ho. simpl.
  rewrite SetAnnotations_SetAnnotations, insert_delete_eq.
  rewrite insert_id; [done | by rewrite annotation_default].
Qed.

Lemma updateApplyAnnotation_absent u codec :
  annotation u LastAppliedConfigAnnotation = None →
  updateApplyAnnotation u codec = (u, None).
Proof.
  intros H. unfold updateApplyAnnotation, GetOriginalConfiguration.
  fold (annotation u LastAppliedConfigAnnotation). by rewrite H.
Qed.

Lemma updateApplyAnnotation_present u codec original :
  annotation u LastAppliedConfigAnnotation = Some original →
  original ≠ EmptyString →
  updateApplyAnnotation u codec = CreateApplyAnnotation u codec.
Proof.
  intros H Hne. unfold updateApplyAnnotation, GetOriginalConfiguration.
  fold (annotation u LastAppliedConfigAnnotation). rewrite H. simpl.
  destruct original; [done | done].
Qed.

(** Whatever the encoder answers, annotations other than the last-applied
    one come out as they went in. *)
Lemma CreateApplyAnnotation_other_keys u codec k :
  k ≠ LastAppliedConfigAnnotation →
  annotation (CreateApplyAnnotation u codec).1 k = annotation u k.
Proof.
  intros Hk. unfold CreateApplyAnnotation, GetModifiedConfiguration.
  destruct (codec _) as [err | modified]; simpl.
  - rewrite annotation_SetAnnotations, lookup_delete_ne by congruence.
    apply annotation_default.
  - unfold setOriginalConfiguration.
    destruct (String.length modified <? 1); simpl;
      rewrite !annotation_SetAnnotations;
      rewrite ?GetAnnotations_SetAnnotations; simpl;
      rewrite !lookup_insert_ne, lookup_delete_ne by congruence;
      apply annotation_default.
Qed.

Lemma CreateOrUpdateAnnotation_other_keys (create : bool) u codec k :
  k ≠ LastAppliedConfigAnnotation →
  annotation (CreateOrUpdateAnnotation create u codec).1 k = annotation u k.
Proof.
  intros Hk. unfold CreateOrUpdateAnnotation, updateApplyAnnotation.
  destruct create; [by apply CreateApplyAnnotation_other_keys |].
  destruct (_ <=? _); [done | by apply CreateApplyAnnotation_other_keys].
Qed.

(** An error of the codec is the encoder's error on the object without its
    last-applied annotation, and that annotation is then gone. *)
Lemma CreateOrUpdateAnnotation_error (create : bool) u codec u' err :
  CreateOrUpdateAnnotation create u codec = (u', Some err) →
  let stripped :=
    SetAnnotations (Some (delete LastAppliedConfigAnnotation (default ∅ (GetAnnotations u)))) u in
  codec stripped = inl err ∧ u' = stripped.
Proof.
  intros H stripped.
  assert (CreateApplyAnnotation u codec = (u', Some err)) as Hc.
  { revert H. unfold CreateOrUpdateAnnotation, updateApplyAnnotation.
    destruct create; [done |]. by destruct (_ <=? _). }
  revert Hc. unfold CreateApplyAnnotation, GetModifiedConfiguration.
  fold stripped. destruct (codec stripped) as [e | modified]; simpl.
  - intros [= <- <-]. done.
  - intros [= _].
Qed.

(** The last-applied annotation after the codec has run: left as it was,
    removed because the encoder failed, or replaced by the text the encoder
    wrote for the object without it. *)
Lemma CreateOrUpdateAnnotation_lastApplied u codec :
  let r := CreateOrUpdateAnnotation false u codec in
  let stripped :=
    SetAnnotations (Some (delete LastAppliedConfigAnnotation (default ∅ (GetAnnotations u)))) u in
  annotation r.1 LastAppliedConfigAnnotation = annotation u LastAppliedConfigAnnotation ∨
  annotation r.1 LastAppliedConfigAnnotation = None ∨
  ∃ modified, codec stripped = inr modified ∧
              annotation r.1 LastAppliedConfigAnnotation = Some modified.
Proof.
  intros r stripped. unfold r, CreateOrUpdateAnnotation, updateApplyAnnotation.
  destruct (len (GetOriginalConfiguration u) <=? 0) eqn:Hlen; [by left |].
  assert (∃ original, annotation u LastAppliedConfigAnnotation = Some original)
    as [original Ho].
  { unfold GetOriginalConfiguration in Hlen.
    fold (annotation u LastAppliedConfigAnnotation) in Hlen.
    destruct (annotation u LastAppliedConfigAnnotation); [eauto | done]. }
  unfold CreateApplyAnnotation, GetModifiedConfiguration. fold stripped.
  destruct (codec stripped) as [err | modified] eqn:Henc; cbn [fst].
  - right. left. unfold stripped. rewrite annotation_SetAnnotations.
    apply lookup_delete_eq.
  - unfold setOriginalConfiguration.
    destruct (String.length modified <? 1).
    + left. unfold stripped. rewrite annotation_SetAnnotations, lookup_insert_eq.
      by rewrite annotation_default, Ho.
    + right. right. exists modified. split; [done |].
      rewrite annotation_SetAnnotations. apply lookup_insert_eq.
Qed.
End LastAppliedFacts.

(** ** The last-applied codec on a decoded object *)
Section DecodedFacts.
Context {B error : Type}.
Implicit Types (u : Decoded B) (w : Unstructured B) (codec : Encoder (Decoded B) error).

(** On an object of the data model the codec works as above. *)
Lemma CreateOrUpdateAnnotation_WellFormed (create : bool) w codec :
  CreateOrUpdateAnnotation create (WellFormed w) codec =
    let r := CreateOrUpdateAnnotation create w (codec ∘ WellFormed) in
    (WellFormed r.1, r.2).
Proof.
  unfold CreateOrUpdateAnnotation, updateApplyAnnotation, CreateApplyAnnotation,
    GetModifiedConfiguration, setOriginalConfiguration, GetOriginalConfiguration.
  simpl.
  destruct create; [| destruct (len _ <=? 0); [done |]];
    (destruct (codec _) as [err | modified]; [done |]);
    simpl; by destruct (String.length modified <? 1).
Qed.

(** When the metadata is not a map there is no annotation to refresh: the
    codec does nothing and reports no error. *)
Lemma CreateOrUpdateAnnotation_MetadataNotMap (rest : B) codec :
  CreateOrUpdateAnnotation false (MetadataNotMap rest) codec = (MetadataNotMap rest, None).
Proof. done. Qed.

(** Line 80 followed by line 81, on a decoded snapshot that can be written. *)
Lemma snapshot_codec_WellFormed w (a : gmap string string) codec :
  CreateOrUpdateAnnotation false (SetAnnotations (Some a) (WellFormed w)) codec =
    let r := CreateOrUpdateAnnotation false (SetAnnotations (Some a) w) (codec ∘ WellFormed) in
    (WellFormed r.1, r.2).
Proof. exact (CreateOrUpdateAnnotation_WellFormed false (SetAnnotations (Some a) w) codec). Qed.

(** Line 80 followed by line 81, on a decoded snapshot that cannot. *)
Lemma snapshot_codec_MetadataNotMap (rest : B) (a : gmap string string) codec :
  CreateOrUpdateAnnotation false (SetAnnotations (Some a) (MetadataNotMap rest)) codec =
    (MetadataNotMap rest, None).
Proof. done. Qed.

(** An error comes from the encoder, on a snapshot of the data model. *)
Lemma snapshot_codec_error u (a : gmap string string) codec u' err :
  CreateOrUpdateAnnotation false (SetAnnotations (Some a) u) codec = (u', Some err) →
  ∃ w, u = WellFormed w ∧
       codec (SetAnnotations (Some (delete LastAppliedConfigAnnotation a)) u) = inl err ∧
       u' = WellFormed (SetAnnotations (Some (delete LastAppliedConfigAnnotation a)) w).
Proof.
  destruct u as [w | rest]; [| by rewrite snapshot_codec_MetadataNotMap].
  rewrite snapshot_codec_WellFormed. cbv zeta.
  destruct (CreateOrUpdateAnnotation false _ _) as [w' e] eqn:Hr.
  cbn [fst snd]. intros [= <- ->].
  apply CreateOrUpdateAnnotation_error in Hr as [Henc ->].
  exists w. split; [done |]. split; [exact Henc | done].
Qed.
End DecodedFacts.

(** ** The reconciler *)
Section ReconcilerFacts.
Context {B error : Type} `{!JSONCodec B error}.
Implicit Types (obj w : Unstructured B) (u : Decoded B) (oldID newID : string).

(** *** [getOriginalObj] *)

Lemma getOriginalObj_Some obj u :
  getOriginalObj obj = Some u ↔
  ∃ lastApplied, annotation obj LastAppliedConfigAnnotation = Some lastApplied ∧
                 json_Unmarshal lastApplied = inr u.
Proof.
  unfold getOriginalObj. fold (annotation obj LastAppliedConfigAnnotation).
  destruct (annotation obj LastAppliedConfigAnnotation) as [s |]; simpl.
  - destruct (json_Unmarshal s) as [e | u0] eqn:Hd; split.
    + done.
    + intros (s' & [= <-] & Hs'). congruence.
    + intros [= <-]. eauto.
    + intros (s' & [= <-] & Hs'). congruence.
  - split; [done | by intros (? & ? & ?)].
Qed.

Lemma getOriginalObj_None obj :
  getOriginalObj obj = None ↔
  annotation obj LastAppliedConfigAnnotation = None ∨
  ∃ lastApplied err, annotation obj LastAppliedConfigAnnotation = Some lastApplied ∧
                     json_Unmarshal lastApplied = inl err.
Proof.
  unfold getOriginalObj. fold (annotation obj LastAppliedConfigAnnotation).
  destruct (annotation obj LastAppliedConfigAnnotation) as [s |]; simpl.
  - destruct (json_Unmarshal s) as [e | u0] eqn:Hd; split.
    + eauto.
    + done.
    + done.
    + intros [? | (s' & e & [= <-] & He)]; congruence.
  - split; [by left | done].
Qed.

(** *** The paths of [UpdateAnnotation] *)

(** The conditional update declines. *)
Lemma UpdateAnnotation_other_owner obj oldID newID val :
  annotation obj owningInventoryKey = Some val → val ≠ oldID →
  UpdateAnnotation obj oldID newID = (obj, (false, None)).
Proof.
  intros Hval Hne. unfold UpdateAnnotation.
  change "config.k8s.io/owning-inventory" with owningInventoryKey.
  change (match GetAnnotations obj with Some a => a | None => ∅ end)
    with (default ∅ (GetAnnotations obj)).
  rewrite annotation_default, Hval. simpl.
  by rewrite bool_decide_eq_false_2.
Qed.

(** The guard of the update holds exactly under [unowned_or_owned_by]. *)
Lemma UpdateAnnotation_guard obj oldID :
  unowned_or_owned_by obj oldID →
  (let '(val, found) := comma_ok (annotation obj owningInventoryKey) in
   negb found || bool_decide (val = oldID)) = true.
Proof.
  intros [-> | ->]; simpl; [done |]. by rewrite bool_decide_eq_true_2.
Qed.

(** The update without a snapshot. *)
Lemma UpdateAnnotation_direct obj oldID newID :
  unowned_or_owned_by obj oldID → getOriginalObj obj = None →
  UpdateAnnotation obj oldID newID =
    (SetAnnotations (Some (assigned obj newID)) obj, (true, None)).
Proof.
  intros Hpre Hnil. unfold UpdateAnnotation.
  change "config.k8s.io/owning-inventory" with owningInventoryKey.
  change (match GetAnnotations obj with Some a => a | None => ∅ end)
    with (default ∅ (GetAnnotations obj)).
  rewrite annotation_default.
  pose proof (UpdateAnnotation_guard obj oldID Hpre) as Hg.
  destruct (comma_ok _) as [val found]. rewrite Hg, Hnil. done.
Qed.

(** The update through the snapshot, whatever the decoder returned. *)
Lemma UpdateAnnotation_through_snapshot obj oldID newID u :
  unowned_or_owned_by obj oldID → getOriginalObj obj = Some u →
  UpdateAnnotation obj oldID newID =
    let r := CreateOrUpdateAnnotation false
               (SetAnnotations (Some (assigned obj newID)) u) DefaultJSONEncoder in
    (SetAnnotations (GetAnnotations r.1) obj, (true, r.2)).
Proof.
  intros Hpre Hu. unfold UpdateAnnotation.
  change "config.k8s.io/owning-inventory" with owningInventoryKey.
  change (match GetAnnotations obj with Some a => a | None => ∅ end)
    with (default ∅ (GetAnnotations obj)).
  rewrite annotation_default.
  pose proof (UpdateAnnotation_guard obj oldID Hpre) as Hg.
  destruct (comma_ok _) as [val found]. rewrite Hg, Hu.
  fold (assigned obj newID). by destruct (CreateOrUpdateAnnotation _ _ _).
Qed.

(** The update through a snapshot of the data model. *)
Lemma UpdateAnnotation_through_writable obj oldID newID w :
  unowned_or_owned_by obj oldID → getOriginalObj obj = Some (WellFormed w) →
  UpdateAnnotation obj oldID newID =
    let r := CreateOrUpdateAnnotation false
               (SetAnnotations (Some (assigned obj newID)) w)
               (DefaultJSONEncoder ∘ WellFormed) in
    (SetAnnotations (GetAnnotations r.1) obj, (true, r.2)).
Proof.
  intros Hpre Hu.
  rewrite (UpdateAnnotation_through_snapshot obj oldID newID (WellFormed w) Hpre Hu).
  cbv zeta. by rewrite snapshot_codec_WellFormed.
Qed.

(** The update through a snapshot whose metadata is not a map: line 80
    writes nothing, line 81 does nothing, and line 82 copies the [nil]
    annotations of the snapshot onto the live object. *)
Lemma UpdateAnnotation_through_unwritable obj oldID newID (rest : B) :
  unowned_or_owned_by obj oldID → getOriginalObj obj = Some (MetadataNotMap rest) →
  UpdateAnnotation obj oldID newID = (SetAnnotations None obj, (true, None)).
Proof.
  intros Hpre Hu.
  rewrite (UpdateAnnotation_through_snapshot obj oldID newID (MetadataNotMap rest) Hpre Hu).
  cbv zeta. by rewrite snapshot_codec_MetadataNotMap.
Qed.

(** Every object is on the declining path or on an updating one. *)
Lemma owner_cases obj oldID :
  unowned_or_owned_by obj oldID ∨
  ∃ val, annotation obj owningInventoryKey = Some val ∧ val ≠ oldID.
Proof.
  unfold unowned_or_owned_by.
  destruct (annotation obj owningInventoryKey) as [val |]; [| by left; left].
  destruct (decide (val = oldID)) as [-> | Hne]; [by left; right | right; eauto].
Qed.

(** The three shapes of a decoded snapshot. *)
Lemma snapshot_cases obj :
  getOriginalObj obj = None ∨
  (∃ w, getOriginalObj obj = Some (WellFormed w)) ∨
  (∃ rest, getOriginalObj obj = Some (MetadataNotMap rest)).
Proof. destruct (getOriginalObj obj) as [[w | rest] |]; eauto. Qed.

(** On the updating paths [changed] is true. *)
Lemma UpdateAnnotation_changed obj oldID newID :
  unowned_or_owned_by obj oldID → (UpdateAnnotation obj oldID newID).2.1 = true.
Proof.
  intros Hpre. destruct (getOriginalObj obj) as [u |] eqn:Hu.
  - by rewrite (UpdateAnnotation_through_snapshot _ _ _ u).
  - by rewrite UpdateAnnotation_direct.
Qed.

(** After an update the ownership annotation is [newID], without a snapshot
    or with one that can be written, whatever the encoder answered. *)
Lemma UpdateAnnotation_owner obj oldID newID :
  unowned_or_owned_by obj oldID → snapshot_writable obj →
  annotation (UpdateAnnotation obj oldID newID).1 owningInventoryKey = Some newID ∧
  (UpdateAnnotation obj oldID newID).2.1 = true.
Proof.
  intros Hpre Hw. split; [| by apply UpdateAnnotation_changed].
  destruct (snapshot_cases obj) as [Hu | [[w Hu] | [rest Hu]]].
  - rewrite UpdateAnnotation_direct by done. cbn [fst].
    rewrite annotation_SetAnnotations. apply annotation_assigned_owner.
  - rewrite (UpdateAnnotation_through_writable _ _ _ w) by done.
    cbv zeta. cbn [fst].
    rewrite annotation_copy, CreateOrUpdateAnnotation_other_keys
      by apply owning_ne_lastApplied.
    rewrite annotation_SetAnnotations. apply annotation_assigned_owner.
  - by destruct (Hw rest).
Qed.

(** C1.  The claim does not hold of the code.  When the ownership
    annotation is absent or equals [oldID] but the last-applied annotation
    decodes to an object whose metadata is not a map, [UpdateAnnotation]
    removes every annotation of the live object and returns [(true, nil)]:
    the ownership annotation is not set to [newID], it is absent. *)
Theorem UpdateAnnotation_unwritable_snapshot obj oldID newID (rest : B) :
  unowned_or_owned_by obj oldID → getOriginalObj obj = Some (MetadataNotMap rest) →
  UpdateAnnotation obj oldID newID = (SetAnnotations None obj, (true, None)) ∧
  annotation (UpdateAnnotation obj oldID newID).1 owningInventoryKey = None.
Proof.
  intros Hpre Hu.
  rewrite (UpdateAnnotation_through_unwritable obj oldID newID rest Hpre Hu). done.
Qed.

(** C2.  If the ownership annotation is present with a value other than
    [oldID], [UpdateAnnotation] returns [(false, nil)] and the object it
    leaves is the object it was given, in every field. *)
Theorem UpdateAnnotation_declines obj oldID newID val :
  annotation obj owningInventoryKey = Some val → val ≠ oldID →
  UpdateAnnotation obj oldID newID = (obj, (false, None)).
Proof. apply UpdateAnnotation_other_owner. Qed.

(** C7.  If the ownership annotation is absent or equals [oldID] and the
    last-applied annotation is absent or does not decode, then
    [UpdateAnnotation] writes the ownership annotation of the live object
    directly and returns [(true, nil)]; the decoding error is not
    returned. *)
Theorem UpdateAnnotation_without_snapshot obj oldID newID :
  unowned_or_owned_by obj oldID →
  (annotation obj LastAppliedConfigAnnotation = None ∨
   ∃ lastApplied err,
     annotation obj LastAppliedConfigAnnotation = Some lastApplied ∧
     json_Unmarshal lastApplied = inl err) →
  UpdateAnnotation obj oldID newID =
    (SetAnnotations (Some (assigned obj newID)) obj, (true, None)) ∧
  annotation (UpdateAnnotation obj oldID newID).1 owningInventoryKey = Some newID.
Proof.
  intros Hpre Hnil. apply getOriginalObj_None in Hnil.
  rewrite UpdateAnnotation_direct by done. split; [done |]. cbn [fst].
  rewrite annotation_SetAnnotations. apply annotation_assigned_owner.
Qed.

(** C10.  [UpdateAnnotation] returns a non-nil error only together with
    [changed = true]: whenever [changed] is false the error is nil. *)
Theorem UpdateAnnotation_error_only_when_changed obj oldID newID :
  (UpdateAnnotation obj oldID newID).2.1 = false →
  (UpdateAnnotation obj oldID newID).2.2 = None.
Proof.
  destruct (owner_cases obj oldID) as [Hpre | (val & Hval & Hne)].
  - by rewrite (UpdateAnnotation_changed obj oldID newID Hpre).
  - by rewrite (UpdateAnnotation_other_owner _ _ _ val).
Qed.

(** C5.  The claim does not hold of the code.  When the ownership
    annotation is absent or equals [oldID] and the last-applied annotation
    decodes to an object whose metadata is not a map, the first call returns
    [(true, nil)] and leaves the object without annotations; the second call
    with the same arguments then finds no ownership annotation, writes it
    and returns [(true, nil)], not [(false, nil)]. *)
Theorem UpdateAnnotation_second_call_unwritable obj oldID newID (rest : B) :
  unowned_or_owned_by obj oldID → getOriginalObj obj = Some (MetadataNotMap rest) →
  (UpdateAnnotation obj oldID newID).2 = (true, None) ∧
  UpdateAnnotation (UpdateAnnotation obj oldID newID).1 oldID newID =
    (mkUnstructured (Some {[ owningInventoryKey := newID ]}) (body obj), (true, None)).
Proof.
  intros Hpre Hu.
  rewrite (UpdateAnnotation_through_unwritable obj oldID newID rest Hpre Hu).
  split; [done |]. cbn [fst].
  rewrite UpdateAnnotation_direct; [done | by left |].
  apply getOriginalObj_None. by left.
Qed.

(** *** The snapshot branch *)

(** The codec on the snapshot as line 80 leaves it, when the encoder
    succeeds: the decoded object [w] carrying the live object's annotations,
    ownership key set, is encoded without the last-applied key. *)
Lemma snapshot_branch_success obj newID w original modified :
  annotation obj LastAppliedConfigAnnotation = Some original →
  original ≠ EmptyString → modified ≠ EmptyString →
  DefaultJSONEncoder
    (SetAnnotations (Some (delete LastAppliedConfigAnnotation (assigned obj newID))) w)
    = inr modified →
  CreateOrUpdateAnnotation false
    (SetAnnotations (Some (assigned obj newID)) w) (DefaultJSONEncoder ∘ WellFormed) =
  (SetAnnotations (Some (<[LastAppliedConfigAnnotation := modified]> (assigned obj newID))) w,
   None).
Proof.
  intros Ho Hne Hm Henc.
  assert (annotation (SetAnnotations (Some (assigned obj newID)) w)
            LastAppliedConfigAnnotation = Some original) as Hla.
  { rewrite annotation_SetAnnotations, annotation_assigned_other; [done |].
    intros Heq. by apply owning_ne_lastApplied. }
  unfold CreateOrUpdateAnnotation.
  rewrite (updateApplyAnnotation_present _ _ original) by done.
  unfold CreateApplyAnnotation.
  rewrite (GetModifiedConfiguration_success _ _ original modified) by done.
  unfold setOriginalConfiguration. destruct modified; [done |]. done.
Qed.

(** The codec on the snapshot as line 80 leaves it, when the encoder
    fails. *)
Lemma snapshot_branch_failure obj newID w original err :
  annotation obj LastAppliedConfigAnnotation = Some original →
  original ≠ EmptyString →
  DefaultJSONEncoder
    (SetAnnotations (Some (delete LastAppliedConfigAnnotation (assigned obj newID))) w)
    = inl err →
  CreateOrUpdateAnnotation false
    (SetAnnotations (Some (assigned obj newID)) w) (DefaultJSONEncoder ∘ WellFormed) =
  (SetAnnotations (Some (delete LastAppliedConfigAnnotation (assigned obj newID))) w,
   Some err).
Proof.
  intros Ho Hne Henc.
  assert (annotation (SetAnnotations (Some (assigned obj newID)) w)
            LastAppliedConfigAnnotation = Some original) as Hla.
  { rewrite annotation_SetAnnotations, annotation_assigned_other; [done |].
    intros Heq. by apply owning_ne_lastApplied. }
  unfold CreateOrUpdateAnnotation.
  rewrite (updateApplyAnnotation_present _ _ original) by done.
  unfold CreateApplyAnnotation.
  by rewrite (GetModifiedConfiguration_failure _ _ err).
Qed.

(** The snapshot branch when the encoder succeeds. *)
Lemma UpdateAnnotation_reencoded obj oldID newID w modified :
  unowned_or_owned_by obj oldID → getOriginalObj obj = Some (WellFormed w) →
  annotation obj LastAppliedConfigAnnotation ≠ Some EmptyString →
  modified ≠ EmptyString →
  DefaultJSONEncoder
    (SetAnnotations (Some (delete LastAppliedConfigAnnotation (assigned obj newID))) w)
    = inr modified →
  UpdateAnnotation obj oldID newID =
    (SetAnnotations (Some (<[LastAppliedConfigAnnotation := modified]> (assigned obj newID))) obj,
     (true, None)).
Proof.
  intros Hpre Hu Hne Hm Henc.
  rewrite (UpdateAnnotation_through_writable obj oldID newID w Hpre Hu).
  apply getOriginalObj_Some in Hu as (original & Ho & _).
  cbv zeta.
  rewrite (snapshot_branch_success obj newID w original modified); try done.
  intros ->. by apply Hne.
Qed.

(** C3 (amended).  When the ownership annotation is absent or equals
    [oldID] and the last-applied annotation decodes to a snapshot [w] whose
    metadata is absent or a map, [UpdateAnnotation] replaces the
    annotations of [w] by the live object's annotation map with the
    ownership key set to [newID] (the snapshot's own annotations are
    dropped, its other fields kept), runs the last-applied codec on that
    snapshot, copies the annotations the snapshot then has onto the live
    object, and returns [true] with the codec's error. *)
Theorem UpdateAnnotation_with_snapshot obj oldID newID w :
  unowned_or_owned_by obj oldID → getOriginalObj obj = Some (WellFormed w) →
  let snapshot := SetAnnotations (Some (assigned obj newID)) w in
  let r := CreateOrUpdateAnnotation false (WellFormed snapshot) DefaultJSONEncoder in
  GetAnnotations snapshot = Some (assigned obj newID) ∧ body snapshot = body w ∧
  UpdateAnnotation obj oldID newID =
    (SetAnnotations (GetAnnotations r.1) obj, (true, r.2)).
Proof.
  intros Hpre Hu snapshot r. split; [done |]. split; [done |].
  exact (UpdateAnnotation_through_snapshot obj oldID newID (WellFormed w) Hpre Hu).
Qed.

(** C4.  When the snapshot branch is taken and re-serialising the updated
    snapshot fails with [err], [UpdateAnnotation] returns [changed = true]
    together with [err], which is the encoder's error; the live object has
    by then received the annotations of the snapshot: its ownership
    annotation is [newID] and its annotations are no longer what they
    were. *)
Theorem UpdateAnnotation_encoding_error obj oldID newID u u' err :
  unowned_or_owned_by obj oldID → getOriginalObj obj = Some u →
  CreateOrUpdateAnnotation false
    (SetAnnotations (Some (assigned obj newID)) u) DefaultJSONEncoder = (u', Some err) →
  UpdateAnnotation obj oldID newID =
    (SetAnnotations (GetAnnotations u') obj, (true, Some err)) ∧
  DefaultJSONEncoder
    (SetAnnotations (Some (delete LastAppliedConfigAnnotation (assigned obj newID))) u)
    = inl err ∧
  annotation (UpdateAnnotation obj oldID newID).1 owningInventoryKey = Some newID ∧
  GetAnnotations (UpdateAnnotation obj oldID newID).1 ≠ GetAnnotations obj.
Proof.
  intros Hpre Hu Herr.
  pose proof (UpdateAnnotation_through_snapshot obj oldID newID u Hpre Hu) as Heq.
  cbv zeta in Heq. rewrite Herr in Heq. cbn [fst snd] in Heq.
  apply snapshot_codec_error in Herr as (w & -> & Henc & ->).
  split; [exact Heq |]. split; [exact Henc |].
  rewrite Heq. cbn [fst]. split.
  - rewrite annotation_copy.
    change (annotation (WellFormed (SetAnnotations
              (Some (delete LastAppliedConfigAnnotation (assigned obj newID))) w))
              owningInventoryKey)
      with (delete LastAppliedConfigAnnotation (assigned obj newID) !! owningInventoryKey).
    rewrite lookup_delete_ne by (intros Heq'; by apply owning_ne_lastApplied).
    apply annotation_assigned_owner.
  - intros Hsame.
    apply getOriginalObj_Some in Hu as (original & Ho & _).
    assert (annotation (SetAnnotations (GetAnnotations (WellFormed (SetAnnotations
              (Some (delete LastAppliedConfigAnnotation (assigned obj newID))) w))) obj)
              LastAppliedConfigAnnotation = None) as Hgone.
    { change (delete LastAppliedConfigAnnotation (assigned obj newID)
                !! LastAppliedConfigAnnotation = None).
      apply lookup_delete_eq. }
    unfold annotation in Hgone, Ho. rewrite Hsame in Hgone. congruence.
Qed.

(** C6 (amended).  Let the ownership annotation of the object be absent or
    empty, and let its last-applied annotation hold valid JSON for another
    object with an empty annotation map; let the decoder reject the empty
    text, let the encoder succeed on the updated snapshot, and let the text
    it writes decode to an object with the annotations that were encoded.
    After [UpdateAnnotation] with the empty [oldID] and the [newID] [inv-3],
    the ownership annotation of the live object and that of the snapshot
    decoded from the live object's last-applied annotation both equal
    [inv-3]. *)
Theorem UpdateAnnotation_snapshot_agrees obj u modified u' :
  rejects_empty_text B error →
  unowned_or_owned_by obj EmptyString →
  getOriginalObj obj = Some u → GetAnnotations u = Some ∅ →
  DefaultJSONEncoder
    (SetAnnotations (Some (delete LastAppliedConfigAnnotation (assigned obj "inv-3"))) u)
    = inr modified →
  json_Unmarshal modified = inr u' →
  GetAnnotations u' =
    GetAnnotations
      (SetAnnotations (Some (delete LastAppliedConfigAnnotation (assigned obj "inv-3"))) u) →
  let obj' := (UpdateAnnotation obj EmptyString "inv-3").1 in
  annotation obj' owningInventoryKey = Some "inv-3" ∧
  ∃ snapshot, getOriginalObj obj' = Some snapshot ∧
              annotation snapshot owningInventoryKey = Some "inv-3".
Proof.
  intros Hempty Hpre Hu Hann Henc Hdec Hsame obj'.
  destruct u as [w | rest]; [| done].
  assert (modified ≠ EmptyString) as Hm by (intros ->; by apply (Hempty u')).
  pose proof Hu as Hu'.
  apply getOriginalObj_Some in Hu' as (original & Ho & Hdo).
  assert (original ≠ EmptyString) as Hne by (intros ->; by apply (Hempty (WellFormed w))).
  unfold obj'.
  rewrite (UpdateAnnotation_reencoded obj EmptyString "inv-3" w modified);
    try done; [| congruence].
  cbn [fst]. split.
  - rewrite annotation_SetAnnotations.
    rewrite lookup_insert_ne by (intros Heq; by apply owning_ne_lastApplied).
    apply annotation_assigned_owner.
  - exists u'. split.
    + apply getOriginalObj_Some. exists modified. split; [| done].
      rewrite annotation_SetAnnotations. apply lookup_insert_eq.
    + unfold annotation. rewrite Hsame.
      change (GetAnnotations (SetAnnotations
                (Some (delete LastAppliedConfigAnnotation (assigned obj "inv-3")))
                (WellFormed w)))
        with (Some (delete LastAppliedConfigAnnotation (assigned obj "inv-3"))).
      unfold nil_lookup. cbn [mbind option_bind].
      rewrite lookup_delete_ne by (intros Heq; by apply owning_ne_lastApplied).
      apply annotation_assigned_owner.
Qed.
End ReconcilerFacts.

(** ** The accessor *)
Section AccessorProperties.
Context `{Kubernetes}.
Implicit Types (ctx : context_Context) (meta : ObjMetadata) (obj : Unstructured object_body).

(** [resourceInterface] asks the mapper once, and nothing else. *)
Lemma run_resourceInterface {W : Type} (h : handler W) (w : W) meta :
  run h (resourceInterface meta) w =
    let '(answer, w1) := h _ (RESTMapper_RESTMapping (GroupKind meta)) w in
    (match answer with
     | inl err => inl err
     | inr mapping => inr (mkResourceInterface (Resource mapping) (Namespace meta))
     end, w1, [Issued (RESTMapper_RESTMapping (GroupKind meta))]).
Proof.
  unfold resourceInterface. simpl.
  destruct (h _ _ w) as [[err | mapping] w1]; reflexivity.
Qed.

(** C8.  [Get] issues exactly one REST-mapping resolution.  If the
    resolution fails, [Get] returns that error, with no object, and issues
    no fetch.  Otherwise it issues exactly one fetch, by [meta.Name], on the
    handle for the resolved resource and [meta.Namespace], and returns the
    answer of the fetch as it is.  This holds for every identity and for
    every behaviour of the two services. *)
Theorem Get_one_resolution_one_fetch {W : Type} (h : handler W) (w : W) ctx meta :
  let resolution := RESTMapper_RESTMapping (GroupKind meta) in
  match h _ resolution w with
  | (inl err, w1) =>
      run h (Get ctx meta) w = ((None, Some err), w1, [Issued resolution])
  | (inr mapping, w1) =>
      let r := mkResourceInterface (Resource mapping) (Namespace meta) in
      let fetch := Resource_Get r ctx (Name meta) zero in
      run h (Get ctx meta) w = (h _ fetch w1, [Issued resolution; Issued fetch])
  end.
Proof.
  intros resolution. unfold Get, resourceInterface. simpl. fold resolution.
  destruct (h _ resolution w) as [[err | mapping] w1]; [reflexivity |].
  simpl. by destruct (h _ _ w1) as [answer w2].
Qed.

(** C9.  [Update] with [options = nil] and [Update] with the zero-valued
    options are the same program, so under every behaviour of the two
    services they issue the same requests and return the same error. *)
Theorem Update_nil_options ctx meta obj :
  Update ctx meta obj None = Update ctx meta obj (Some zero) ∧
  ∀ (W : Type) (h : handler W) (w : W),
    run h (Update ctx meta obj None) w = run h (Update ctx meta obj (Some zero)) w.
Proof. split; reflexivity. Qed.

(** What the common program does: one resolution, then, if it succeeds, one
    update request carrying the object and the options. *)
Lemma run_Update {W : Type} (h : handler W) (w : W) ctx meta obj options :
  let resolution := RESTMapper_RESTMapping (GroupKind meta) in
  match h _ resolution w with
  | (inl err, w1) =>
      run h (Update ctx meta obj options) w = (Some err, w1, [Issued resolution])
  | (inr mapping, w1) =>
      let r := mkResourceInterface (Resource mapping) (Namespace meta) in
      let update := Resource_Update r ctx obj (default zero options) in
      run h (Update ctx meta obj options) w =
        ((h _ update w1).1.2, (h _ update w1).2, [Issued resolution; Issued update])
  end.
Proof.
  intros resolution. unfold Update, resourceInterface. simpl. fold resolution.
  destruct (h _ resolution w) as [[err | mapping] w1]; [reflexivity |].
  simpl. destruct options as [options |]; simpl;
    by destruct (h _ _ w1) as [[updated err] w2].
Qed.
End AccessorProperties.

(** The sample cluster, asked for a stored object and for an unknown kind. *)
Example Get_stored :
  run sample_cluster (Get tt (mkObjMetadata "default" "cm" "ConfigMap")) {[ "cm" := bare ]} =
    ((Some bare, None), {[ "cm" := bare ]},
     [Issued (RESTMapper_RESTMapping "ConfigMap");
      Issued (Resource_Get (mkResourceInterface "configmaps" "default") tt "cm" tt)]).
Proof. reflexivity. Qed.

Example Get_unknown_kind :
  run sample_cluster (Get tt (mkObjMetadata "default" "cm" "Gadget")) {[ "cm" := bare ]} =
    ((None, Some "no matches for kind"), {[ "cm" := bare ]},
     [Issued (RESTMapper_RESTMapping "Gadget")]).
Proof. reflexivity. Qed.

(** ** The reference codec and the sample objects *)

Lemma pos_to_bits_nonempty (p : positive) : pos_to_bits p ≠ EmptyString.
Proof. by destruct p. Qed.

Lemma bits_to_pos_to_bits (p : positive) : bits_to_pos (pos_to_bits p) = Some p.
Proof.
  induction p as [p IH | p IH |]; [| | done].
  - change (pos_to_bits p~1) with (String "1"%char (pos_to_bits p)).
    pose proof (pos_to_bits_nonempty p) as Hne.
    destruct (pos_to_bits p) as [| c s] eqn:Hbits; [done |].
    cbn [bits_to_pos] in *. cbn [Ascii.eqb Bool.eqb]. by rewrite IH.
  - change (pos_to_bits p~0) with (String "0"%char (pos_to_bits p)).
    pose proof (pos_to_bits_nonempty p) as Hne.
    destruct (pos_to_bits p) as [| c s] eqn:Hbits; [done |].
    cbn [bits_to_pos] in *. cbn [Ascii.eqb Bool.eqb]. by rewrite IH.
Qed.

(** Reading back what the reference codec wrote. *)
Lemma sample_Unmarshal_text (u : Decoded string) :
  sample_Unmarshal (sample_text u) = inr u.
Proof.
  unfold sample_Unmarshal, sample_text.
  rewrite bits_to_pos_to_bits. simpl. by rewrite decode_encode.
Qed.

Lemma sample_rejects_empty : rejects_empty_text string string.
Proof. intros u. done. Qed.

Lemma sample_keeps_metadata : encoder_keeps_metadata string string.
Proof.
  intros u text rest Henc.
  change (sample_Encoder (WellFormed u) = inr text) in Henc.
  unfold sample_Encoder in Henc. case_bool_decide; [done |].
  injection Henc as <-.
  change (sample_Unmarshal (sample_text (WellFormed u)) ≠ inr (MetadataNotMap rest)).
  by rewrite sample_Unmarshal_text.
Qed.

(** ** The specification's wording against the code *)

(** C3, as worded, fails.  The live object [applied_b] carries the
    annotation [b]; its snapshot [snapshot_a] carries [a].  The update does
    not assign the ownership key in the snapshot's own annotations: the
    snapshot it re-serialises has lost [a] and carries [b]. *)
Lemma snapshot_annotations_replaced :
  unowned_or_owned_by applied_b EmptyString ∧
  getOriginalObj applied_b = Some (WellFormed snapshot_a) ∧
  annotation snapshot_a "a" = Some "1" ∧
  (∃ u, getOriginalObj (UpdateAnnotation applied_b EmptyString "inv-2").1 = Some u ∧
        annotation u "a" = None ∧ annotation u "b" = Some "2").
Proof.
  split; [by left |]. split; [by vm_compute |]. split; [done |].
  eexists. split; [by vm_compute |]. by vm_compute.
Qed.

(** C6, as worded, fails.  [applied_owned] holds a valid snapshot with an
    empty annotation map but is owned by [inv-1]: the update declines and
    the ownership annotation stays [inv-1]. *)
Lemma snapshot_agreement_fails :
  getOriginalObj applied_owned = Some (WellFormed snapshot_empty) ∧
  GetAnnotations snapshot_empty = Some ∅ ∧
  UpdateAnnotation applied_owned EmptyString "inv-3" = (applied_owned, (false, None)) ∧
  annotation (UpdateAnnotation applied_owned EmptyString "inv-3").1 owningInventoryKey
    ≠ Some "inv-3".
Proof.
  split; [by vm_compute |]. split; [done |]. split; [by vm_compute |].
  by vm_compute.
Qed.

(** ** The properties on the sample objects *)

Lemma UpdateAnnotation_unwritable_snapshot_null_metadata :
  unowned_or_owned_by applied_null_metadata EmptyString ∧
  getOriginalObj applied_null_metadata = Some snapshot_null_metadata ∧
  UpdateAnnotation applied_null_metadata EmptyString "inv-2" =
    (mkUnstructured None "ConfigMap", (true, None)) ∧
  annotation (UpdateAnnotation applied_null_metadata EmptyString "inv-2").1
    owningInventoryKey = None.
Proof.
  assert (unowned_or_owned_by applied_null_metadata EmptyString) as Hpre
    by (left; reflexivity).
  assert (getOriginalObj applied_null_metadata = Some (MetadataNotMap "ConfigMap")) as Hu
    by (vm_compute; reflexivity).
  split; [exact Hpre |]. split; [exact Hu |].
  exact (UpdateAnnotation_unwritable_snapshot applied_null_metadata EmptyString "inv-2"
           "ConfigMap" Hpre Hu).
Defined.

Lemma UpdateAnnotation_second_call_null_metadata :
  unowned_or_owned_by applied_null_metadata EmptyString ∧
  getOriginalObj applied_null_metadata = Some snapshot_null_metadata ∧
  (UpdateAnnotation applied_null_metadata EmptyString "inv-2").2 = (true, None) ∧
  UpdateAnnotation (UpdateAnnotation applied_null_metadata EmptyString "inv-2").1
      EmptyString "inv-2" =
    (mkUnstructured (Some {[ owningInventoryKey := "inv-2" ]}) "ConfigMap", (true, None)).
Proof.
  assert (unowned_or_owned_by applied_null_metadata EmptyString) as Hpre
    by (left; reflexivity).
  assert (getOriginalObj applied_null_metadata = Some (MetadataNotMap "ConfigMap")) as Hu
    by (vm_compute; reflexivity).
  split; [exact Hpre |]. split; [exact Hu |].
  exact (UpdateAnnotation_second_call_unwritable applied_null_metadata EmptyString "inv-2"
           "ConfigMap" Hpre Hu).
Defined.

Lemma UpdateAnnotation_declines_mismatch :
  annotation applied_owned owningInventoryKey = Some "inv-1" ∧ "inv-1" ≠ "inv-9" ∧
  UpdateAnnotation applied_owned "inv-9" "inv-2" = (applied_owned, (false, None)).
Proof.
  assert (annotation applied_owned owningInventoryKey = Some "inv-1") as Hval
    by (vm_compute; reflexivity).
  assert ("inv-1" ≠ "inv-9") as Hne by discriminate.
  split; [exact Hval |]. split; [exact Hne |].
  exact (UpdateAnnotation_declines applied_owned "inv-9" "inv-2" "inv-1" Hval Hne).
Defined.

Lemma UpdateAnnotation_with_snapshot_applied_b :
  unowned_or_owned_by applied_b EmptyString ∧
  getOriginalObj applied_b = Some (WellFormed snapshot_a) ∧
  GetAnnotations (SetAnnotations (Some (assigned applied_b "inv-2")) snapshot_a) =
    Some (assigned applied_b "inv-2") ∧
  body (SetAnnotations (Some (assigned applied_b "inv-2")) snapshot_a) = body snapshot_a ∧
  UpdateAnnotation applied_b EmptyString "inv-2" =
    (SetAnnotations
       (GetAnnotations
          (CreateOrUpdateAnnotation false
             (WellFormed (SetAnnotations (Some (assigned applied_b "inv-2")) snapshot_a))
             DefaultJSONEncoder).1)
       applied_b,
     (true,
      (CreateOrUpdateAnnotation false
         (WellFormed (SetAnnotations (Some (assigned applied_b "inv-2")) snapshot_a))
         DefaultJSONEncoder).2)).
Proof.
  assert (unowned_or_owned_by applied_b EmptyString) as Hpre by (left; reflexivity).
  assert (getOriginalObj applied_b = Some (WellFormed snapshot_a)) as Hu
    by (vm_compute; reflexivity).
  split; [exact Hpre |]. split; [exact Hu |].
  exact (UpdateAnnotation_with_snapshot applied_b EmptyString "inv-2" snapshot_a Hpre Hu).
Defined.

Lemma UpdateAnnotation_encoding_error_unregistered :
  unowned_or_owned_by applied_unregistered EmptyString ∧
  getOriginalObj applied_unregistered = Some (WellFormed snapshot_unregistered) ∧
  UpdateAnnotation applied_unregistered EmptyString "inv-3" =
    (mkUnstructured (Some {[ owningInventoryKey := "inv-3" ]}) "Unregistered",
     (true, Some "no kind is registered")) ∧
  GetAnnotations (UpdateAnnotation applied_unregistered EmptyString "inv-3").1
    ≠ GetAnnotations applied_unregistered.
Proof.
  assert (unowned_or_owned_by applied_unregistered EmptyString) as Hpre by (left; reflexivity).
  assert (getOriginalObj applied_unregistered = Some (WellFormed snapshot_unregistered)) as Hu
    by (vm_compute; reflexivity).
  assert (CreateOrUpdateAnnotation false
            (SetAnnotations (Some (assigned applied_unregistered "inv-3"))
               (WellFormed snapshot_unregistered))
            DefaultJSONEncoder
          = (WellFormed (mkUnstructured (Some {[ owningInventoryKey := "inv-3" ]}) "Unregistered"),
             Some "no kind is registered")) as Herr by (vm_compute; reflexivity).
  split; [exact Hpre |]. split; [exact Hu |].
  destruct (UpdateAnnotation_encoding_error applied_unregistered EmptyString "inv-3"
              (WellFormed snapshot_unregistered) _ _ Hpre Hu Herr) as (Heq & _ & _ & Hmut).
  split; [exact Heq | exact Hmut].
Defined.

Lemma UpdateAnnotation_snapshot_agrees_applied :
  unowned_or_owned_by applied EmptyString ∧
  getOriginalObj applied = Some (WellFormed snapshot_empty) ∧
  annotation (UpdateAnnotation applied EmptyString "inv-3").1 owningInventoryKey = Some "inv-3" ∧
  ∃ snapshot,
    getOriginalObj (UpdateAnnotation applied EmptyString "inv-3").1 = Some snapshot ∧
    annotation snapshot owningInventoryKey = Some "inv-3".
Proof.
  assert (unowned_or_owned_by applied EmptyString) as Hpre by (left; reflexivity).
  assert (getOriginalObj applied = Some (WellFormed snapshot_empty)) as Hu
    by (vm_compute; reflexivity).
  split; [exact Hpre |]. split; [exact Hu |].
  refine (UpdateAnnotation_snapshot_agrees applied (WellFormed snapshot_empty)
            (sample_text
               (SetAnnotations
                  (Some (delete LastAppliedConfigAnnotation (assigned applied "inv-3")))
                  (WellFormed snapshot_empty)))
            (SetAnnotations
               (Some (delete LastAppliedConfigAnnotation (assigned applied "inv-3")))
               (WellFormed snapshot_empty))
            sample_rejects_empty Hpre Hu _ _ _ _).
  - reflexivity.
  - vm_compute. reflexivity.
  - apply sample_Unmarshal_text.
  - reflexivity.
Defined.

Lemma UpdateAnnotation_without_snapshot_malformed :
  unowned_or_owned_by applied_malformed "inv-1" ∧
  (∃ lastApplied err,
     annotation applied_malformed LastAppliedConfigAnnotation = Some lastApplied ∧
     json_Unmarshal lastApplied = inl err) ∧
  UpdateAnnotation applied_malformed "inv-1" "inv-2" =
    (SetAnnotations (Some (assigned applied_malformed "inv-2")) applied_malformed, (true, None)).
Proof.
  assert (unowned_or_owned_by applied_malformed "inv-1") as Hpre by (left; reflexivity).
  assert (∃ lastApplied err,
            annotation applied_malformed LastAppliedConfigAnnotation = Some lastApplied ∧
            @json_Unmarshal string string _ lastApplied = inl err) as Hbad.
  { exists "{not json", "invalid character". split; vm_compute; reflexivity. }
  split; [exact Hpre |]. split; [exact Hbad |].
  exact (proj1 (UpdateAnnotation_without_snapshot applied_malformed "inv-1" "inv-2"
                  Hpre (or_intror Hbad))).
Defined.

Lemma UpdateAnnotation_error_only_when_changed_owned :
  (UpdateAnnotation applied_owned "inv-9" "inv-2").2.1 = false ∧
  (UpdateAnnotation applied_owned "inv-9" "inv-2").2.2 = None.
Proof.
  assert ((UpdateAnnotation applied_owned "inv-9" "inv-2").2.1 = false) as Hdeclined
    by (vm_compute; reflexivity).
  split; [exact Hdeclined |].
  exact (UpdateAnnotation_error_only_when_changed applied_owned "inv-9" "inv-2" Hdeclined).
Defined.

(* ===================================================================== *)
(** * Part III: further properties of the code                            *)
(* ===================================================================== *)

(** ** More about the reconciler *)
Section ReconcilerMore.
Context {B error : Type} `{!JSONCodec B error}.
Implicit Types (obj w : Unstructured B) (u : Decoded B) (oldID newID : string).

(** [getOriginalObj] reads the last-applied annotation and nothing else. *)
Lemma getOriginalObj_ext obj obj' :
  annotation obj LastAppliedConfigAnnotation = annotation obj' LastAppliedConfigAnnotation →
  getOriginalObj obj = getOriginalObj obj'.
Proof.
  intros Heq. unfold getOriginalObj.
  fold (annotation obj LastAppliedConfigAnnotation).
  fold (annotation obj' LastAppliedConfigAnnotation). by rewrite Heq.
Qed.

Lemma SetAnnotations_id obj (annots : gmap string string) :
  GetAnnotations obj = Some annots → SetAnnotations (Some annots) obj = obj.
Proof.
  destruct obj as [a b]. change (a = Some annots → mkUnstructured (Some annots) b = mkUnstructured a b).
  by intros ->.
Qed.

Lemma assigned_id obj id :
  annotation obj owningInventoryKey = Some id →
  GetAnnotations obj = Some (assigned obj id).
Proof.
  unfold annotation, assigned. destruct (GetAnnotations obj) as [annots |]; [| done].
  simpl. intros Hid. by rewrite insert_id.
Qed.

(** An updating call never leaves a last-applied text that decodes to an
    object whose metadata is not a map, provided the encoder does not write
    such a text for an object of the data model. *)
Lemma UpdateAnnotation_keeps_writable obj oldID newID :
  encoder_keeps_metadata B error → unowned_or_owned_by obj oldID →
  snapshot_writable (UpdateAnnotation obj oldID newID).1.
Proof.
  intros Hkeep Hpre rest Hbad.
  apply getOriginalObj_Some in Hbad as (text & Htext & Hdec).
  destruct (snapshot_cases obj) as [Hu | [[w Hu] | [rest' Hu]]].
  - rewrite UpdateAnnotation_direct in Htext by done. cbn [fst] in Htext.
    rewrite annotation_SetAnnotations, annotation_assigned_other in Htext
      by (intros Heq; by apply owning_ne_lastApplied).
    apply getOriginalObj_None in Hu as [Hu | (s & e & Hs & He)]; congruence.
  - rewrite (UpdateAnnotation_through_writable _ _ _ w) in Htext by done.
    cbv zeta in Htext. cbn [fst] in Htext. rewrite annotation_copy in Htext.
    apply getOriginalObj_Some in Hu as (original & Ho & Hdo).
    destruct (CreateOrUpdateAnnotation_lastApplied
                (SetAnnotations (Some (assigned obj newID)) w)
                (DefaultJSONEncoder ∘ WellFormed))
      as [Hsame | [Hgone | (modified & Henc & Hnew)]].
    + rewrite Hsame, annotation_SetAnnotations, annotation_assigned_other in Htext
        by (intros Heq; by apply owning_ne_lastApplied).
      congruence.
    + congruence.
    + rewrite Hnew in Htext. injection Htext as ->.
      exact (Hkeep _ _ rest Henc Hdec).
  - rewrite (UpdateAnnotation_through_unwritable _ _ _ rest') in Htext by done.
    done.
Qed.

(** X1.  Provided the last-applied annotation, when it decodes, decodes to
    an object whose metadata is absent or a map, [UpdateAnnotation] writes
    two annotations at most, the ownership one and the last-applied one: on
    every path, whatever the encoder answers, every other annotation and
    every other field of the object come out as they went in. *)
Theorem UpdateAnnotation_frame obj oldID newID k :
  k ≠ owningInventoryKey → k ≠ LastAppliedConfigAnnotation →
  snapshot_writable obj →
  annotation (UpdateAnnotation obj oldID newID).1 k = annotation obj k ∧
  body (UpdateAnnotation obj oldID newID).1 = body obj.
Proof.
  intros Hown Hla Hw.
  destruct (owner_cases obj oldID) as [Hpre | (val & Hval & Hne)].
  - destruct (snapshot_cases obj) as [Hu | [[w Hu] | [rest Hu]]].
    + rewrite UpdateAnnotation_direct by done. cbn [fst]. split; [| done].
      rewrite annotation_SetAnnotations. by apply annotation_assigned_other.
    + rewrite (UpdateAnnotation_through_writable _ _ _ w) by done.
      cbv zeta. cbn [fst]. split; [| done].
      rewrite annotation_copy, CreateOrUpdateAnnotation_other_keys by done.
      rewrite annotation_SetAnnotations. by apply annotation_assigned_other.
    + by destruct (Hw rest).
  - by rewrite (UpdateAnnotation_other_owner _ _ _ val).
Qed.

(** X2.  The result [changed] tells the caller exactly whether the guard
    held: it is true if and only if the ownership annotation was absent or
    equal to [oldID]; and when it is false the object has not been touched,
    so there is nothing to persist. *)
Theorem UpdateAnnotation_changed_iff obj oldID newID :
  ((UpdateAnnotation obj oldID newID).2.1 = true ↔ unowned_or_owned_by obj oldID) ∧
  ((UpdateAnnotation obj oldID newID).2.1 = false → (UpdateAnnotation obj oldID newID).1 = obj).
Proof.
  destruct (owner_cases obj oldID) as [Hpre | (val & Hval & Hne)].
  - rewrite (UpdateAnnotation_changed obj oldID newID Hpre).
    split; [done | discriminate].
  - rewrite (UpdateAnnotation_other_owner _ _ _ val) by done. cbn [fst snd].
    split; [| done]. split; [discriminate |].
    intros [Hnone | Hold]; congruence.
Qed.

(** X3.  [changed = true] does not mean that anything changed: on an object
    that is owned by [id] and carries no decodable snapshot,
    [UpdateAnnotation(obj, id, id)] returns [(true, nil)] and leaves the
    object exactly as it was. *)
Theorem UpdateAnnotation_same_owner obj id :
  annotation obj owningInventoryKey = Some id → getOriginalObj obj = None →
  UpdateAnnotation obj id id = (obj, (true, None)).
Proof.
  intros Hid Hnil.
  rewrite UpdateAnnotation_direct; [| by right | done].
  by rewrite (SetAnnotations_id obj (assigned obj id)) by by apply assigned_id.
Qed.

(** X4.  On an object without ownership annotation [oldID] plays no part:
    the object is adopted whatever [oldID] is, with the same result. *)
Theorem UpdateAnnotation_unowned obj oldID oldID' newID :
  annotation obj owningInventoryKey = None →
  UpdateAnnotation obj oldID newID = UpdateAnnotation obj oldID' newID.
Proof.
  intros Hnone.
  assert (∀ id, unowned_or_owned_by obj id) as Hpre by (intros id; by left).
  destruct (getOriginalObj obj) as [u |] eqn:Hu.
  - by rewrite !(UpdateAnnotation_through_snapshot _ _ _ u).
  - by rewrite !UpdateAnnotation_direct.
Qed.

(** X5.  Transfers chain: after an update from [a] to [b], an update from
    [b] to [c] goes through as well and leaves the ownership annotation at
    [c], with or without snapshot and whatever the first call did, provided
    the encoder, given an object whose metadata is a map, never writes a
    text that decodes to an object whose metadata is not. *)
Theorem UpdateAnnotation_chain obj a b c :
  encoder_keeps_metadata B error →
  unowned_or_owned_by obj a →
  let obj' := (UpdateAnnotation obj a b).1 in
  annotation (UpdateAnnotation obj' b c).1 owningInventoryKey = Some c ∧
  (UpdateAnnotation obj' b c).2.1 = true.
Proof.
  intros Hkeep Hpre obj'.
  apply UpdateAnnotation_owner; [| by apply UpdateAnnotation_keeps_writable].
  unfold obj'. destruct (snapshot_cases obj) as [Hu | [[w Hu] | [rest Hu]]].
  - right. apply UpdateAnnotation_owner; [done |]. intros rest. congruence.
  - right. apply UpdateAnnotation_owner; [done |]. intros rest. congruence.
  - left. by rewrite (UpdateAnnotation_through_unwritable _ _ _ rest).
Qed.

(** X6.  Without a decodable snapshot a transfer can be undone: moving the
    ownership of an object owned by [a] to [b] and then back from [b] to [a]
    returns [(true, nil)] and gives back the original object, field by
    field. *)
Theorem UpdateAnnotation_there_and_back obj a b :
  annotation obj owningInventoryKey = Some a → getOriginalObj obj = None →
  UpdateAnnotation (UpdateAnnotation obj a b).1 b a = (obj, (true, None)).
Proof.
  intros Ha Hnil.
  rewrite (UpdateAnnotation_direct obj a b) by (done || by right). cbn [fst].
  set (obj' := SetAnnotations (Some (assigned obj b)) obj).
  assert (getOriginalObj obj' = None) as Hnil'.
  { rewrite <- Hnil. apply getOriginalObj_ext. unfold obj'.
    rewrite annotation_SetAnnotations. apply annotation_assigned_other.
    intros Heq. by apply owning_ne_lastApplied. }
  rewrite (UpdateAnnotation_direct obj' b a); [| right | done].
  - unfold obj', assigned. rewrite GetAnnotations_SetAnnotations.
    cbn [default from_option id].
    rewrite SetAnnotations_SetAnnotations, insert_insert_eq.
    fold (assigned obj a). by rewrite (SetAnnotations_id obj) by by apply assigned_id.
  - unfold obj'. rewrite annotation_SetAnnotations. apply annotation_assigned_owner.
Qed.

(** X7.  When the snapshot is within the data model and the encoder refuses
    it, the error is returned and the live object loses its last-applied
    annotation: it is left with its other annotations, the ownership key
    set to [newID], and no snapshot. *)
Theorem UpdateAnnotation_encoder_failure obj oldID newID w err :
  rejects_empty_text B error →
  unowned_or_owned_by obj oldID → getOriginalObj obj = Some (WellFormed w) →
  DefaultJSONEncoder
    (SetAnnotations (Some (delete LastAppliedConfigAnnotation (assigned obj newID))) w)
    = inl err →
  UpdateAnnotation obj oldID newID =
    (SetAnnotations (Some (delete LastAppliedConfigAnnotation (assigned obj newID))) obj,
     (true, Some err)) ∧
  getOriginalObj (UpdateAnnotation obj oldID newID).1 = None.
Proof.
  intros Hempty Hpre Hu Henc.
  pose proof Hu as Hu'. apply getOriginalObj_Some in Hu' as (original & Ho & Hdo).
  assert (original ≠ EmptyString) as Hne by (intros ->; by apply (Hempty (WellFormed w))).
  assert (UpdateAnnotation obj oldID newID =
    (SetAnnotations (Some (delete LastAppliedConfigAnnotation (assigned obj newID))) obj,
     (true, Some err))) as Heq.
  { rewrite (UpdateAnnotation_through_writable obj oldID newID w Hpre Hu). cbv zeta.
    by rewrite (snapshot_branch_failure obj newID w original err). }
  split; [exact Heq |]. rewrite Heq. cbn [fst].
  apply getOriginalObj_None. left.
  rewrite annotation_SetAnnotations. apply lookup_delete_eq.
Qed.

(** X8.  After an update through a snapshot of the data model, when the
    encoder succeeds and the text it wrote decodes to an object with the
    annotations that were encoded, the live object and its snapshot agree:
    the snapshot decoded from the new last-applied annotation carries
    exactly the annotations of the live object, less the last-applied
    annotation itself. *)
Theorem UpdateAnnotation_snapshot_in_step obj oldID newID w modified u' :
  rejects_empty_text B error →
  unowned_or_owned_by obj oldID → getOriginalObj obj = Some (WellFormed w) →
  DefaultJSONEncoder
    (SetAnnotations (Some (delete LastAppliedConfigAnnotation (assigned obj newID))) w)
    = inr modified →
  json_Unmarshal modified = inr u' →
  GetAnnotations u' = Some (delete LastAppliedConfigAnnotation (assigned obj newID)) →
  let obj' := (UpdateAnnotation obj oldID newID).1 in
  getOriginalObj obj' = Some u' ∧
  GetAnnotations u' =
    Some (delete LastAppliedConfigAnnotation (default ∅ (GetAnnotations obj'))).
Proof.
  intros Hempty Hpre Hu Henc Hdec Hann obj'.
  assert (modified ≠ EmptyString) as Hm by (intros ->; by apply (Hempty u')).
  pose proof Hu as Hu'. apply getOriginalObj_Some in Hu' as (original & Ho & Hdo).
  assert (original ≠ EmptyString) as Hne by (intros ->; by apply (Hempty (WellFormed w))).
  unfold obj'.
  rewrite (UpdateAnnotation_reencoded obj oldID newID w modified); try done; [| congruence].
  cbn [fst]. split.
  - apply getOriginalObj_Some. exists modified. split; [| done].
    rewrite annotation_SetAnnotations. apply lookup_insert_eq.
  - rewrite Hann, GetAnnotations_SetAnnotations. cbn [default from_option id].
    by rewrite delete_insert_eq.
Qed.

(** X9.  The state reached by an update through the snapshot is stable: when
    the text the encoder wrote decodes to exactly the snapshot that was
    encoded, running [UpdateAnnotation(obj', newID, newID)] on the updated
    object succeeds and gives back [obj'] itself, with the same last-applied
    text. *)
Theorem UpdateAnnotation_stable obj oldID newID w modified :
  rejects_empty_text B error →
  unowned_or_owned_by obj oldID → getOriginalObj obj = Some (WellFormed w) →
  DefaultJSONEncoder
    (SetAnnotations (Some (delete LastAppliedConfigAnnotation (assigned obj newID))) w)
    = inr modified →
  json_Unmarshal modified =
    inr (WellFormed
           (SetAnnotations (Some (delete LastAppliedConfigAnnotation (assigned obj newID))) w)) →
  let obj' := (UpdateAnnotation obj oldID newID).1 in
  UpdateAnnotation obj' newID newID = (obj', (true, None)).
Proof.
  intros Hempty Hpre Hu Henc Hdec obj'.
  set (snapshot :=
    SetAnnotations (Some (delete LastAppliedConfigAnnotation (assigned obj newID))) w) in *.
  assert (modified ≠ EmptyString) as Hm
    by (intros ->; by apply (Hempty (WellFormed snapshot))).
  pose proof Hu as Hu'. apply getOriginalObj_Some in Hu' as (original & Ho & Hdo).
  assert (original ≠ EmptyString) as Hne by (intros ->; by apply (Hempty (WellFormed w))).
  set (annots := <[LastAppliedConfigAnnotation := modified]> (assigned obj newID)).
  assert (obj' = SetAnnotations (Some annots) obj) as Hobj'.
  { unfold obj'.
    by rewrite (UpdateAnnotation_reencoded obj oldID newID w modified);
      try done; congruence. }
  assert (annots !! owningInventoryKey = Some newID) as Hown.
  { unfold annots. rewrite lookup_insert_ne by (intros Heq; by apply owning_ne_lastApplied).
    apply annotation_assigned_owner. }
  assert (assigned obj' newID = annots) as Hassigned.
  { rewrite Hobj'. unfold assigned at 1. rewrite GetAnnotations_SetAnnotations.
    cbn [default from_option id]. by apply insert_id. }
  assert (annotation obj' LastAppliedConfigAnnotation = Some modified) as Hla.
  { rewrite Hobj', annotation_SetAnnotations. apply lookup_insert_eq. }
  rewrite (UpdateAnnotation_reencoded obj' newID newID snapshot modified).
  - rewrite Hassigned. unfold annots at 1. rewrite insert_insert_eq. fold annots.
    rewrite Hobj'. by rewrite SetAnnotations_SetAnnotations.
  - right. by rewrite Hobj', annotation_SetAnnotations.
  - apply getOriginalObj_Some. by exists modified.
  - rewrite Hla. congruence.
  - done.
  - rewrite Hassigned. unfold annots. rewrite delete_insert_eq.
    unfold snapshot at 1. by rewrite SetAnnotations_SetAnnotations.
Qed.

(** X12.  Provided the last-applied annotation, when it decodes, decodes to
    an object whose metadata is absent or a map: if the ownership annotation
    is absent or equals [oldID], [UpdateAnnotation] leaves it equal to
    [newID] and returns [changed = true], without a snapshot or with one,
    whatever the encoder answers. *)
Theorem UpdateAnnotation_sets_owner obj oldID newID :
  unowned_or_owned_by obj oldID → snapshot_writable obj →
  annotation (UpdateAnnotation obj oldID newID).1 owningInventoryKey = Some newID ∧
  (UpdateAnnotation obj oldID newID).2.1 = true.
Proof. apply UpdateAnnotation_owner. Qed.

(** X13.  Under the same proviso and with [newID ≠ oldID], a second call
    with the same arguments returns [(false, nil)] and leaves the object as
    the first call left it, whatever the first call returned. *)
Theorem UpdateAnnotation_second_call_declines obj oldID newID :
  newID ≠ oldID → snapshot_writable obj →
  UpdateAnnotation (UpdateAnnotation obj oldID newID).1 oldID newID =
    ((UpdateAnnotation obj oldID newID).1, (false, None)).
Proof.
  intros Hne Hw.
  destruct (owner_cases obj oldID) as [Hpre | (val & Hval & Hval_ne)].
  - destruct (UpdateAnnotation_owner obj oldID newID Hpre Hw) as [Ho _].
    by apply (UpdateAnnotation_other_owner _ _ _ newID).
  - rewrite (UpdateAnnotation_other_owner obj _ _ val) by done. cbn [fst].
    by apply (UpdateAnnotation_other_owner _ _ _ val).
Qed.

(** X14.  When the snapshot is within the data model and the encoder
    succeeds with a text that is not empty, [UpdateAnnotation] returns
    [(true, nil)] and the live object keeps its own annotations, with the
    ownership key set to [newID] and the last-applied key holding the text
    of the decoded object serialised with the live object's annotations,
    less the last-applied one. *)
Theorem UpdateAnnotation_reencodes obj oldID newID w modified :
  rejects_empty_text B error →
  unowned_or_owned_by obj oldID → getOriginalObj obj = Some (WellFormed w) →
  modified ≠ EmptyString →
  DefaultJSONEncoder
    (SetAnnotations (Some (delete LastAppliedConfigAnnotation (assigned obj newID))) w)
    = inr modified →
  UpdateAnnotation obj oldID newID =
    (SetAnnotations (Some (<[LastAppliedConfigAnnotation := modified]> (assigned obj newID))) obj,
     (true, None)).
Proof.
  intros Hempty Hpre Hu Hm Henc.
  apply (UpdateAnnotation_reencoded obj oldID newID w modified); try done.
  apply getOriginalObj_Some in Hu as (original & Ho & Hdo).
  rewrite Ho. intros [= ->]. by apply (Hempty (WellFormed w)).
Qed.

(** X15.  An updating call never leaves a last-applied text that decodes to
    an object whose metadata is not a map, whatever the object it was given,
    provided the encoder never writes such a text for an object whose
    metadata is a map. *)
Theorem UpdateAnnotation_result_writable obj oldID newID :
  encoder_keeps_metadata B error → unowned_or_owned_by obj oldID →
  snapshot_writable (UpdateAnnotation obj oldID newID).1.
Proof. apply UpdateAnnotation_keeps_writable. Qed.
End ReconcilerMore.

(** ** More about the accessor *)
Section AccessorMore.
Context `{Kubernetes}.
Implicit Types (ctx : context_Context) (meta : ObjMetadata) (obj : Unstructured object_body).

(** X10.  [Update] on a client made by [NewClient(d, mapper)] asks [mapper]
    once.  If the mapper fails, [Update] returns its error and [d] is not
    called.  Otherwise [Update] of [d] is called once, on the handle for the
    resolved resource and [meta.Namespace], with the object as given and the
    options as given (the zero options for [nil]); its error is returned as
    it is and the object it returns is dropped. *)
Theorem Update_through_client {W : Type} (d : dynamic_Interface W)
    (mapper : meta_RESTMapper W) (w : W) ctx meta obj options :
  let uc := NewClient d mapper in
  let resolution := RESTMapper_RESTMapping (GroupKind meta) in
  match mapper (GroupKind meta) w with
  | (inl err, w1) =>
      run (serve uc) (Update ctx meta obj options) w = (Some err, w1, [Issued resolution])
  | (inr mapping, w1) =>
      let r := mkResourceInterface (Resource mapping) (Namespace meta) in
      let opts := default zero options in
      run (serve uc) (Update ctx meta obj options) w =
        ((dynamic_Update d r ctx obj opts w1).1.2, (dynamic_Update d r ctx obj opts w1).2,
         [Issued resolution; Issued (Resource_Update r ctx obj opts)])
  end.
Proof.
  intros uc resolution. unfold Update, resourceInterface. simpl.
  destruct (mapper (GroupKind meta) w) as [[err | mapping] w1]; [reflexivity |].
  simpl. destruct options as [options |]; simpl;
    by destruct (dynamic_Update d _ ctx obj _ w1) as [[updated err] w2].
Qed.

(** X11.  [Update] never reads [meta.Name]: two identities with the same
    group-kind and namespace give the same program, whatever their names.
    The object that is replaced is the one the representation itself
    names. *)
Theorem Update_ignores_Name ctx meta meta' obj options :
  GroupKind meta = GroupKind meta' → Namespace meta = Namespace meta' →
  Update ctx meta obj options = Update ctx meta' obj options.
Proof.
  destruct meta as [ns name gk], meta' as [ns' name' gk']. simpl.
  by intros -> ->.
Qed.
End AccessorMore.

(** ** The further properties on the sample objects *)

Lemma applied_b_writable : snapshot_writable applied_b.
Proof. intros rest. vm_compute. discriminate. Qed.

Lemma applied_writable : snapshot_writable applied.
Proof. intros rest. vm_compute. discriminate. Qed.

Lemma UpdateAnnotation_frame_applied_b :
  "b" ≠ owningInventoryKey ∧ "b" ≠ LastAppliedConfigAnnotation ∧
  snapshot_writable applied_b ∧
  annotation (UpdateAnnotation applied_b EmptyString "inv-2").1 "b" = Some "2" ∧
  body (UpdateAnnotation applied_b EmptyString "inv-2").1 = "ConfigMap".
Proof.
  assert ("b" ≠ owningInventoryKey) as Hown by discriminate.
  assert ("b" ≠ LastAppliedConfigAnnotation) as Hla by discriminate.
  split; [exact Hown |]. split; [exact Hla |]. split; [exact applied_b_writable |].
  exact (UpdateAnnotation_frame applied_b EmptyString "inv-2" "b" Hown Hla
           applied_b_writable).
Defined.

Lemma UpdateAnnotation_same_owner_plain :
  annotation owned_plain owningInventoryKey = Some "inv-1" ∧
  getOriginalObj owned_plain = None ∧
  UpdateAnnotation owned_plain "inv-1" "inv-1" = (owned_plain, (true, None)).
Proof.
  assert (annotation owned_plain owningInventoryKey = Some "inv-1") as Hid
    by (vm_compute; reflexivity).
  assert (getOriginalObj owned_plain = None) as Hnil by (vm_compute; reflexivity).
  split; [exact Hid |]. split; [exact Hnil |].
  exact (UpdateAnnotation_same_owner owned_plain "inv-1" Hid Hnil).
Defined.

Lemma UpdateAnnotation_unowned_applied :
  annotation applied owningInventoryKey = None ∧
  UpdateAnnotation applied EmptyString "inv-2" = UpdateAnnotation applied "inv-9" "inv-2".
Proof.
  assert (annotation applied owningInventoryKey = None) as Hnone
    by (vm_compute; reflexivity).
  split; [exact Hnone |].
  exact (UpdateAnnotation_unowned applied EmptyString "inv-9" "inv-2" Hnone).
Defined.

Lemma UpdateAnnotation_chain_null_metadata :
  encoder_keeps_metadata string string ∧
  unowned_or_owned_by applied_null_metadata EmptyString ∧
  annotation
    (UpdateAnnotation (UpdateAnnotation applied_null_metadata EmptyString "inv-1").1
       "inv-1" "inv-2").1
    owningInventoryKey = Some "inv-2" ∧
  (UpdateAnnotation (UpdateAnnotation applied_null_metadata EmptyString "inv-1").1
     "inv-1" "inv-2").2.1 = true.
Proof.
  assert (unowned_or_owned_by applied_null_metadata EmptyString) as Hpre
    by (left; reflexivity).
  split; [exact sample_keeps_metadata |]. split; [exact Hpre |].
  exact (UpdateAnnotation_chain applied_null_metadata EmptyString "inv-1" "inv-2"
           sample_keeps_metadata Hpre).
Defined.

Lemma UpdateAnnotation_there_and_back_plain :
  annotation owned_plain owningInventoryKey = Some "inv-1" ∧
  getOriginalObj owned_plain = None ∧
  UpdateAnnotation (UpdateAnnotation owned_plain "inv-1" "inv-2").1 "inv-2" "inv-1" =
    (owned_plain, (true, None)).
Proof.
  assert (annotation owned_plain owningInventoryKey = Some "inv-1") as Hid
    by (vm_compute; reflexivity).
  assert (getOriginalObj owned_plain = None) as Hnil by (vm_compute; reflexivity).
  split; [exact Hid |]. split; [exact Hnil |].
  exact (UpdateAnnotation_there_and_back owned_plain "inv-1" "inv-2" Hid Hnil).
Defined.

Lemma UpdateAnnotation_encoder_failure_unregistered :
  unowned_or_owned_by applied_unregistered EmptyString ∧
  getOriginalObj applied_unregistered = Some (WellFormed snapshot_unregistered) ∧
  UpdateAnnotation applied_unregistered EmptyString "inv-3" =
    (SetAnnotations
       (Some (delete LastAppliedConfigAnnotation (assigned applied_unregistered "inv-3")))
       applied_unregistered,
     (true, Some "no kind is registered")) ∧
  getOriginalObj (UpdateAnnotation applied_unregistered EmptyString "inv-3").1 = None.
Proof.
  assert (unowned_or_owned_by applied_unregistered EmptyString) as Hpre by (left; reflexivity).
  assert (getOriginalObj applied_unregistered = Some (WellFormed snapshot_unregistered)) as Hu
    by (vm_compute; reflexivity).
  split; [exact Hpre |]. split; [exact Hu |].
  refine (UpdateAnnotation_encoder_failure applied_unregistered EmptyString "inv-3"
            snapshot_unregistered _ sample_rejects_empty Hpre Hu _).
  vm_compute. reflexivity.
Defined.

Lemma UpdateAnnotation_snapshot_in_step_applied_b :
  unowned_or_owned_by applied_b EmptyString ∧
  getOriginalObj applied_b = Some (WellFormed snapshot_a) ∧
  ∃ snapshot,
    getOriginalObj (UpdateAnnotation applied_b EmptyString "inv-2").1 = Some snapshot ∧
    GetAnnotations snapshot =
      Some (delete LastAppliedConfigAnnotation
              (default ∅ (GetAnnotations (UpdateAnnotation applied_b EmptyString "inv-2").1))).
Proof.
  assert (unowned_or_owned_by applied_b EmptyString) as Hpre by (left; reflexivity).
  assert (getOriginalObj applied_b = Some (WellFormed snapshot_a)) as Hu
    by (vm_compute; reflexivity).
  split; [exact Hpre |]. split; [exact Hu |].
  exists (WellFormed
            (SetAnnotations
               (Some (delete LastAppliedConfigAnnotation (assigned applied_b "inv-2")))
               snapshot_a)).
  refine (UpdateAnnotation_snapshot_in_step applied_b EmptyString "inv-2" snapshot_a
            (sample_text
               (SetAnnotations
                  (Some (delete LastAppliedConfigAnnotation (assigned applied_b "inv-2")))
                  snapshot_a)) _
            sample_rejects_empty Hpre Hu _ _ _).
  - vm_compute. reflexivity.
  - apply sample_Unmarshal_text.
  - reflexivity.
Defined.

Lemma UpdateAnnotation_stable_applied_b :
  unowned_or_owned_by applied_b EmptyString ∧
  getOriginalObj applied_b = Some (WellFormed snapshot_a) ∧
  UpdateAnnotation (UpdateAnnotation applied_b EmptyString "inv-2").1 "inv-2" "inv-2" =
    ((UpdateAnnotation applied_b EmptyString "inv-2").1, (true, None)).
Proof.
  assert (unowned_or_owned_by applied_b EmptyString) as Hpre by (left; reflexivity).
  assert (getOriginalObj applied_b = Some (WellFormed snapshot_a)) as Hu
    by (vm_compute; reflexivity).
  split; [exact Hpre |]. split; [exact Hu |].
  refine (UpdateAnnotation_stable applied_b EmptyString "inv-2" snapshot_a
            (sample_text
               (SetAnnotations
                  (Some (delete LastAppliedConfigAnnotation (assigned applied_b "inv-2")))
                  snapshot_a))
            sample_rejects_empty Hpre Hu _ _).
  - vm_compute. reflexivity.
  - apply sample_Unmarshal_text.
Defined.

Lemma UpdateAnnotation_sets_owner_applied :
  unowned_or_owned_by applied EmptyString ∧ snapshot_writable applied ∧
  annotation (UpdateAnnotation applied EmptyString "inv-2").1 owningInventoryKey
    = Some "inv-2" ∧
  (UpdateAnnotation applied EmptyString "inv-2").2.1 = true.
Proof.
  assert (unowned_or_owned_by applied EmptyString) as Hpre by (left; reflexivity).
  split; [exact Hpre |]. split; [exact applied_writable |].
  exact (UpdateAnnotation_sets_owner applied EmptyString "inv-2" Hpre applied_writable).
Defined.

Lemma UpdateAnnotation_second_call_declines_applied :
  "inv-3" ≠ EmptyString ∧ snapshot_writable applied ∧
  UpdateAnnotation (UpdateAnnotation applied EmptyString "inv-3").1 EmptyString "inv-3" =
    ((UpdateAnnotation applied EmptyString "inv-3").1, (false, None)).
Proof.
  assert ("inv-3" ≠ EmptyString) as Hne by discriminate.
  split; [exact Hne |]. split; [exact applied_writable |].
  exact (UpdateAnnotation_second_call_declines applied EmptyString "inv-3" Hne
           applied_writable).
Defined.

Lemma UpdateAnnotation_reencodes_applied_b :
  unowned_or_owned_by applied_b EmptyString ∧
  getOriginalObj applied_b = Some (WellFormed snapshot_a) ∧
  UpdateAnnotation applied_b EmptyString "inv-2" =
    (SetAnnotations
       (Some (<[ LastAppliedConfigAnnotation :=
                   sample_text (mkUnstructured (Some {[ "b" := "2"; owningInventoryKey := "inv-2" ]})
                                  "ConfigMap") ]>
                (assigned applied_b "inv-2")))
       applied_b,
     (true, None)).
Proof.
  assert (unowned_or_owned_by applied_b EmptyString) as Hpre by (left; reflexivity).
  assert (getOriginalObj applied_b = Some (WellFormed snapshot_a)) as Hu
    by (vm_compute; reflexivity).
  split; [exact Hpre |]. split; [exact Hu |].
  refine (UpdateAnnotation_reencodes applied_b EmptyString "inv-2" snapshot_a _
            sample_rejects_empty Hpre Hu _ _).
  - vm_compute. discriminate.
  - vm_compute. reflexivity.
Defined.

Lemma UpdateAnnotation_result_writable_null_metadata :
  encoder_keeps_metadata string string ∧
  unowned_or_owned_by applied_null_metadata EmptyString ∧
  snapshot_writable (UpdateAnnotation applied_null_metadata EmptyString "inv-2").1.
Proof.
  assert (unowned_or_owned_by applied_null_metadata EmptyString) as Hpre
    by (left; reflexivity).
  split; [exact sample_keeps_metadata |]. split; [exact Hpre |].
  exact (UpdateAnnotation_result_writable applied_null_metadata EmptyString "inv-2"
           sample_keeps_metadata Hpre).
Defined.


Lemma Update_ignores_Name_sample :
  GroupKind (mkObjMetadata "default" "cm" "ConfigMap") =
    GroupKind (mkObjMetadata "default" "other" "ConfigMap") ∧
  Namespace (mkObjMetadata "default" "cm" "ConfigMap") =
    Namespace (mkObjMetadata "default" "other" "ConfigMap") ∧
  Update tt (mkObjMetadata "default" "cm" "ConfigMap") bare None =
    Update tt (mkObjMetadata "default" "other" "ConfigMap") bare None.
Proof.
  split; [reflexivity |]. split; [reflexivity |].
  exact (Update_ignores_Name tt (mkObjMetadata "default" "cm" "ConfigMap")
           (mkObjMetadata "default" "other" "ConfigMap") bare None eq_refl eq_refl).
Defined.

(** The sample client updates a stored object, and fails on an unknown
    kind without writing. *)
Example Update_sample_client :
  run (serve (NewClient sample_dynamic sample_mapper))
      (Update tt (mkObjMetadata "default" "cm" "ConfigMap") owned_plain None) ∅ =
    (None, {[ "ConfigMap" := owned_plain ]},
     [Issued (RESTMapper_RESTMapping "ConfigMap");
      Issued (Resource_Update (mkResourceInterface "configmaps" "default") tt owned_plain [])]).
Proof. reflexivity. Qed.

Example Update_sample_client_unknown_kind :
  run (serve (NewClient sample_dynamic sample_mapper))
      (Update tt (mkObjMetadata "default" "cm" "Gadget") owned_plain None) ∅ =
    (Some "no matches for kind", ∅, [Issued (RESTMapper_RESTMapping "Gadget")]).
Proof. reflexivity. Qed.
